(** * query_data.py: slide pagination, title normalisation, index reset and
    retrieval, as a shallow embedding.

    Python [str] values are modelled by [string]: a sequence of characters,
    each a code point below 256; [len] is [String.length].  Integers that the
    code only counts with ([len], [k]) are [nat].  The objects of the external
    libraries (the python-pptx presentation, the Chroma collection, the file
    system, the language model) are modelled by the part of their state that
    the functions of [query_data.py] read and write. *)

From Stdlib Require Import Ascii.
From stdpp Require Import base option list strings gmap fin_maps.

Local Open Scope nat_scope.

(** ** Strings as Python uses them *)

Module Str.

(** The line separator ["\n"]. *)
Definition nl_char : ascii := "010"%char.
Definition nl : string := String nl_char "".

(** [len(s)]. *)
Definition len (s : string) : nat := String.length s.

(** [bool(s)]: a string is truthy when it is not empty. *)
Definition truthy (s : string) : bool :=
  match s with
  | "" => false
  | String _ _ => true
  end.

(** [s.split("\n")]: never the empty list; a trailing separator gives a
    trailing empty line. *)
Fixpoint split_lines (s : string) : list string :=
  match s with
  | "" => [""]
  | String c rest =>
      if Ascii.eqb c nl_char then "" :: split_lines rest
      else match split_lines rest with
           | [] => [String c ""]
           | l :: ls => String c l :: ls
           end
  end.

(** [sep.join(ls)]. *)
Fixpoint join (sep : string) (ls : list string) : string :=
  match ls with
  | [] => ""
  | [l] => l
  | l :: ls' => l +:+ sep +:+ join sep ls'
  end.

(** ["\n".join(ls)]. *)
Definition join_lines : list string -> string := join nl.

(** A string with no separator in it: what [split] returns as a line. *)
Fixpoint no_nl (s : string) : bool :=
  match s with
  | "" => true
  | String c rest => negb (Ascii.eqb c nl_char) && no_nl rest
  end.

(** [needle in hay]. *)
Fixpoint contains (needle hay : string) : bool :=
  if String.prefix needle hay then true
  else match hay with
       | "" => false
       | String _ rest => contains needle rest
       end.

(** [c.lower()] on the code points below 256: the ASCII capitals and the
    Latin-1 capitals (U+00C0..U+00DE without the multiplication sign U+00D7)
    move up by 32, every other character is left as it is. *)
Definition lower_char (c : ascii) : ascii :=
  let n := nat_of_ascii c in
  if ((65 <=? n) && (n <=? 90)) ||
     ((192 <=? n) && (n <=? 222) && negb (n =? 215))
  then ascii_of_nat (n + 32) else c.

(** [s.lower()]. *)
Fixpoint lower (s : string) : string :=
  match s with
  | "" => ""
  | String c rest => String (lower_char c) (lower rest)
  end.

(** [c * n]: the string of [n] copies of [c] (used for concrete inputs). *)
Fixpoint replicate (n : nat) (c : ascii) : string :=
  match n with
  | 0 => ""
  | S n' => String c (replicate n' c)
  end.

End Str.

(** ** The slide deck *)

(** What [add_content_to_slide] writes on a slide: the title placeholder's
    text when it is set ([None]: the placeholder is left untouched), and the
    text of the paragraph it adds to the content placeholder. *)
Record Slide := mkSlide {
  slide_title : option string;
  slide_body : string
}.

(** [prs.slides]: the presentation is its sequence of slides. *)
Abbreviation Presentation := (list Slide).

Definition MAX_CHARS_PER_SLIDE : nat := 600.

Definition special_cases : list string :=
  ["summary"; "question"; "questions"; "mcq"; "fill in the blanks";
   "fill in the blank"; "case study"; "case studies"].

(** [add_content_to_slide]: [prs.slides.add_slide] appends one slide; the
    title is written only when [is_first_slide]. *)
Definition add_content_to_slide (prs : Presentation) (title content : string)
    (is_first_slide : bool) : Presentation :=
  prs ++ [mkSlide (if is_first_slide then Some title else None) content].

(** The rewriting of the title at the head of [add_slide_with_content]. *)
Definition normalize_title (title : string) : string :=
  if existsb (fun case => Str.contains case (Str.lower title)) special_cases then
    if Str.contains "summary" (Str.lower title) then "Summary:"
    else if Str.contains "case study" (Str.lower title)
            || Str.contains "case studies" (Str.lower title) then "Case study:"
    else "Q&A:"
  else title.

(** The loop variables of [add_slide_with_content]. *)
Record PagState := mkPag {
  pg_prs : Presentation;
  pg_current : string;
  pg_first : bool
}.

Section Paginator.

(** The budget; the module sets it to [MAX_CHARS_PER_SLIDE]. *)
Variable max_chars : nat.

(** One iteration of [for paragraph in paragraphs]. *)
Definition page_step (title : string) (st : PagState) (paragraph : string)
    : PagState :=
  if max_chars <? Str.len (pg_current st) + Str.len paragraph then
    mkPag (add_content_to_slide (pg_prs st) title (pg_current st) (pg_first st))
          paragraph false
  else
    mkPag (pg_prs st)
          ((if Str.truthy (pg_current st) then pg_current st +:+ Str.nl
            else pg_current st) +:+ paragraph)
          (pg_first st).

(** The call of [add_content_to_slide] after the loop. *)
Definition final_flush (title : string) (st : PagState) : Presentation :=
  add_content_to_slide (pg_prs st) title (pg_current st) (pg_first st).

(** [add_slide_with_content] for a budget of [max_chars]. *)
Definition add_slide_with_content_at (prs : Presentation)
    (title content : string) : Presentation :=
  let title := normalize_title title in
  let paragraphs := Str.split_lines content in
  final_flush title (foldl (page_step title) (mkPag prs "" true) paragraphs).

End Paginator.

Definition add_slide_with_content : Presentation -> string -> string -> Presentation :=
  add_slide_with_content_at MAX_CHARS_PER_SLIDE.

(** The slides one call adds to an empty presentation, and their bodies. *)
Definition paginate (max_chars : nat) (title content : string) : list Slide :=
  add_slide_with_content_at max_chars [] title content.

Definition bodies (slides : list Slide) : list string := map slide_body slides.

(** The lines written on the slides, in order, and the lines of a list that
    are not empty. *)
Definition body_lines (slides : list Slide) : list string :=
  concat (map Str.split_lines (bodies slides)).

Definition nonblank (ls : list string) : list string :=
  filter (fun l => l ≠ "") ls.


(** ** The paginator as the specification words it

    A second definition, written from the description of the state machine:
    an accumulator [current_content] and a flag [first_slide]; a line that
    would bring [len(current_content) + len(line)] over the budget flushes the
    accumulator as a slide (titled only when [first_slide], which is cleared)
    and becomes the new accumulator; otherwise it is appended, after a newline
    when the accumulator is not empty; what remains at the end is flushed. *)
Definition spec_flush (title current_content : string) (first_slide : bool) : Slide :=
  {| slide_title := if first_slide then Some title else None;
     slide_body := current_content |}.

Fixpoint spec_paginator (max_chars : nat) (title : string) (lines : list string)
    (current_content : string) (first_slide : bool) : list Slide :=
  match lines with
  | [] => [spec_flush title current_content first_slide]
  | line :: rest =>
      if decide (max_chars < Str.len current_content + Str.len line) then
        spec_flush title current_content first_slide
          :: spec_paginator max_chars title rest line false
      else if decide (current_content = "") then
        spec_paginator max_chars title rest line first_slide
      else
        spec_paginator max_chars title rest
          (current_content +:+ Str.nl +:+ line) first_slide
  end.

(** ** The index, the retrieval and the persisted deck *)

(** Modelled from the spec: the document that the loader of
    [populate_database.py] (not among the sources) hands over. *)
Record Document := mkDocument {
  doc_source_path : string;
  doc_page_number : nat;
  doc_text : string
}.

(** Modelled from the spec: a chunk with its identity, as the chunker and the
    identity assigner of [populate_database.py] produce it. *)
Record Chunk := mkChunk {
  chunk_text : string;
  chunk_source_path : string;
  chunk_page_number : nat;
  chunk_index : nat;
  chunk_id : string
}.

(** A retrieved document: [doc.page_content] and [doc.metadata.get("id", None)]. *)
Record Hit := mkHit {
  hit_page_content : string;
  hit_id : option string
}.

(** Modelled from the spec: what the store keeps under an id, the embedding
    vector (of a type the embedding service fixes), the text and the
    metadata. *)
Record IndexEntry (V : Type) := mkEntry {
  entry_vector : V;
  entry_text : string;
  entry_source_path : string;
  entry_page_number : nat;
  entry_chunk_index : nat
}.
Arguments mkEntry {V}.
Arguments entry_vector {V}.
Arguments entry_text {V}.

(** The keys of [PROMPT_TEMPLATES]; the template texts stay with the
    formatting service. *)
Inductive Template := T_rag | T_sum | T_qa | T_case.

Definition PROMPT_TEMPLATES : gmap string Template :=
  list_to_map [("rag", T_rag); ("sum", T_sum); ("qa", T_qa); ("case", T_case)].

(** The services the module calls and does not define: the embedding
    function, the chunker (with the identity assigner), the similarity search
    of the vector store, the prompt formatting and the language model.
    [matches_namespace chunks i] says that the stored id [i] belongs to the id
    namespace of [chunks], the ids that a reset deletes. *)
Class Services := {
  Vector : Type;
  Score : Type;
  embed : string -> option Vector;
  split_documents : list Document -> list Chunk;
  matches_namespace : list Chunk -> string -> bool;
  similarity_search_with_score :
    gmap string (IndexEntry Vector) -> string -> nat -> list (Hit * Score);
  format_prompt : Template -> string -> string -> string;
  invoke : string -> string
}.

(** The calls that leave the module, in the order they are made. *)
Inductive Event :=
| EvLoad
| EvSplit
| EvDelete (chunks : list Chunk)
| EvSync (chunks : list Chunk)
| EvSearch (query_text : string) (k : nat)
| EvInvoke (prompt : string)
| EvSave.

Inductive Exn := KeyError (key : string).

Section Pipeline.

Context `{svc : Services}.

(** The state outside the process: the documents under [DATA_PATH] (as the
    loader reads them), the Chroma collection under [CHROMA_PATH], the
    slides of the file [PPTX_FILE_PATH] when it exists, and the trace of
    the calls made so far. *)
Record World := mkWorld {
  w_data : list Document;
  w_index : gmap string (IndexEntry Vector);
  w_pptx : option Presentation;
  w_log : list Event
}.

Definition set_index (idx : gmap string (IndexEntry Vector)) (w : World) : World :=
  mkWorld (w_data w) idx (w_pptx w) (w_log w).
Definition set_pptx (deck : option Presentation) (w : World) : World :=
  mkWorld (w_data w) (w_index w) deck (w_log w).
Definition log_event (e : Event) (w : World) : World :=
  mkWorld (w_data w) (w_index w) (w_pptx w) (w_log w ++ [e]).

(** Computations on the world that may raise. *)
Definition M (A : Type) : Type := World -> World * (Exn + A).

#[local] Instance M_ret : MRet M := fun A a w => (w, inr a).
#[local] Instance M_bind : MBind M := fun A B f m w =>
  match m w with
  | (w', inl e) => (w', inl e)
  | (w', inr a) => f a w'
  end.

Definition raise {A} (e : Exn) : M A := fun w => (w, inl e).
Definition get_world : M World := fun w => (w, inr w).
Definition modify (f : World -> World) : M unit := fun w => (f w, inr tt).
Definition emit (e : Event) : M unit := modify (log_event e).

(** The slides of the deck on disk; no file, no slides. *)
Definition deck (w : World) : Presentation := default [] (w_pptx w).

(** [update_presentation]: open the file when it exists, a new
    presentation otherwise; add the slides; save. *)
Definition update_presentation (title content : string) : M unit :=
  w ← get_world;
  let prs := match w_pptx w with
             | Some slides => slides
             | None => []
             end in
  let prs := add_slide_with_content prs title content in
  modify (set_pptx (Some prs));;
  emit EvSave.

(** [db.similarity_search_with_score(query_text, k=k)] on the collection
    under [CHROMA_PATH]. *)
Definition db_similarity_search_with_score (query_text : string) (k : nat)
    : M (list (Hit * Score)) :=
  emit (EvSearch query_text k);;
  w ← get_world;
  mret (similarity_search_with_score (w_index w) query_text k).

(** [model.invoke(prompt)]. *)
Definition model_invoke (prompt : string) : M string :=
  emit (EvInvoke prompt);; mret (invoke prompt).

(** [query_database]. *)
Definition query_database (query_text prompt_type : string) : M string :=
  results ← db_similarity_search_with_score query_text 5;
  let context_text :=
    Str.join (Str.nl +:+ Str.nl +:+ "---" +:+ Str.nl +:+ Str.nl)
             (map (fun r => hit_page_content r.1) results) in
  prompt_template ← match PROMPT_TEMPLATES !! prompt_type with
                    | Some t => mret t
                    | None => raise (KeyError prompt_type)
                    end;
  let prompt := format_prompt prompt_template context_text query_text in
  response_text ← model_invoke prompt;
  let sources := map (fun r => hit_id r.1) results in
  update_presentation query_text response_text;;
  mret response_text.

(** Modelled from the spec: [load_documents] and [split_documents] of
    [populate_database.py], which is not among the sources: the loader
    returns the documents of the data directory, the chunker is a function
    of the documents. *)
Definition load_documents : M (list Document) :=
  emit EvLoad;; w ← get_world; mret (w_data w).
Definition split_documents_call (documents : list Document) : M (list Chunk) :=
  emit EvSplit;; mret (split_documents documents).

Definition entry_of (c : Chunk) (v : Vector) : IndexEntry Vector :=
  mkEntry v (chunk_text c) (chunk_source_path c) (chunk_page_number c) (chunk_index c).

(** Modelled from the spec: [delete_database] of [populate_database.py],
    which is not among the sources: it deletes every id currently in the
    index store that matches the id namespace of the given chunks. *)
Definition delete_matching (chunks : list Chunk) (idx : gmap string (IndexEntry Vector))
    : gmap string (IndexEntry Vector) :=
  filter (fun kv => matches_namespace chunks kv.1 = false) idx.

(** Modelled from the spec: the upsert of one new chunk of a sync pass; a
    chunk whose embedding fails is skipped. *)
Definition upsert_chunk (acc : gmap string (IndexEntry Vector) * nat) (c : Chunk)
    : gmap string (IndexEntry Vector) * nat :=
  match embed (chunk_text c) with
  | Some v => (<[chunk_id c := entry_of c v]> acc.1, S acc.2)
  | None => acc
  end.

(** Modelled from the spec: [add_to_chroma] of [populate_database.py], which
    is not among the sources: one sync pass.  It reads the ids present,
    keeps the chunks whose id is not among them, embeds and upserts each of
    these, and never writes a chunk whose id is present; it returns the
    index and the counts [added] and [skipped]. *)
Definition sync (chunks : list Chunk) (idx : gmap string (IndexEntry Vector))
    : gmap string (IndexEntry Vector) * (nat * nat) :=
  let existing := dom idx in
  let new_chunks := filter (fun c => chunk_id c ∉ existing) chunks in
  let '(idx', added) := foldl upsert_chunk (idx, 0) new_chunks in
  (idx', (added, length chunks - added)).

(** Modelled from the spec: the call of [delete_database], which removes the
    matching ids from the store. *)
Definition delete_database (chunks : list Chunk) : M unit :=
  emit (EvDelete chunks);;
  modify (fun w => set_index (delete_matching chunks (w_index w)) w).

(** Modelled from the spec: the call of [add_to_chroma], one sync pass on
    the store. *)
Definition add_to_chroma (chunks : list Chunk) : M unit :=
  emit (EvSync chunks);;
  modify (fun w => set_index (sync chunks (w_index w)).1 w).

(** [update_vector_database] (the success message of the sidebar is not
    part of the state). *)
Definition update_vector_database : M unit :=
  documents ← load_documents;
  chunks ← split_documents_call documents;
  add_to_chroma chunks.

(** [reset_vector_database]. *)
Definition reset_vector_database : M unit :=
  documents ← load_documents;
  chunks ← split_documents_call documents;
  delete_database chunks;;
  documents ← load_documents;
  chunks ← split_documents_call documents;
  add_to_chroma chunks.

(** A session of [main]: the queries (text and prompt type) the user
    enters, each answered by [query_database] in turn. *)
Definition session (queries : list (string * string)) (w : World) : World :=
  foldl (fun w q => (query_database q.1 q.2 w).1) w queries.

End Pipeline.

Definition searches (log : list Event) : list (string * nat) :=
  omap (fun e => match e with EvSearch q k => Some (q, k) | _ => None end) log.

(** ** The page: the sidebar and the chat of [main] *)

(** An uploaded file: [uploaded_file.name] and [uploaded_file.getbuffer()]. *)
Record UploadedFile := mkUploaded {
  up_name : string;
  up_buffer : list Byte.byte
}.

(** An entry of [st.session_state.messages]. *)
Record Message := mkMessage {
  msg_role : string;
  msg_content : string
}.

(** The options of the select box of [main], and its [function_map]. *)
Definition function_options : list string :=
  ["Chat"; "Summary Generation"; "Question Generation"; "Case Study Generation"].

Definition function_map : gmap string string :=
  list_to_map [("Chat", "rag"); ("Summary Generation", "sum");
               ("Question Generation", "qa"); ("Case Study Generation", "case")].

(** What the widgets return in one run of the script: the files of the
    uploader, the two buttons of the sidebar, the file whose Delete button
    was clicked, the option of the select box, the text of the chat input. *)
Record Inputs := mkInputs {
  in_uploaded : list UploadedFile;
  in_update : bool;
  in_reset : bool;
  in_delete : option string;
  in_function : string;
  in_query : option string
}.

(** What a run shows: the files listed, the deck offered for download (none:
    the invitation to start chatting), the messages written. *)
Record PageView := mkView {
  view_files : gset string;
  view_download : option Presentation;
  view_messages : list Message
}.

(** How a run stops early: [st.rerun()], an exception, or a step that the
    model does not follow ([StopUnmodelled]: what the run does from there on
    is decided by the file system or by Streamlit's widget keys, see
    [write_uploaded] and [display_uploaded_files]). *)
Inductive Stop := StopRerun | StopRaise (e : Exn) | StopUnmodelled.

(** The names of uploaded files that the model follows: names that
    [os.path.join(UPLOAD_PATH, name)] keeps inside the data directory and
    that [open] accepts on a POSIX, case-sensitive file system.  A name is
    safe when it starts with an ASCII letter or digit, is made of ASCII
    letters, digits, dots, underscores and hyphens, has at most 100
    characters, and is not ["messages"] (the key of the session state that
    [main] uses).  So no path separator, no [".."], no empty name. *)
Definition alnum_char (c : ascii) : bool :=
  let n := nat_of_ascii c in
  ((48 <=? n) && (n <=? 57)) || ((65 <=? n) && (n <=? 90))
  || ((97 <=? n) && (n <=? 122)).

Definition name_char (c : ascii) : bool :=
  let n := nat_of_ascii c in
  alnum_char c || (n =? 46) || (n =? 95) || (n =? 45).

Fixpoint all_chars (p : ascii -> bool) (s : string) : bool :=
  match s with
  | "" => true
  | String c rest => p c && all_chars p rest
  end.

Definition safe_name (name : string) : bool :=
  match name with
  | "" => false
  | String c _ =>
      alnum_char c && all_chars name_char name
      && (String.length name <=? 100)
      && negb (String.eqb name "messages")
  end.

(** The loader behind [load_documents]: the documents it reads from the
    files of the data directory. *)
Class LoaderService := {
  read_directory : gmap string (list Byte.byte) -> list Document
}.

Section Page.

Context `{svc : Services} `{ldr : LoaderService}.

(** The state a run works on: the world of the pipeline, the files under
    [UPLOAD_PATH] (the directory that [load_documents] reads), and
    [st.session_state.messages] when the key is set.  The directory exists
    and holds regular files only, each under its name. *)
Record App := mkApp {
  app_world : World;
  app_files : gmap string (list Byte.byte);
  app_messages : option (list Message)
}.

Definition set_world (w : World) (a : App) : App :=
  mkApp w (app_files a) (app_messages a).
Definition set_messages (m : option (list Message)) (a : App) : App :=
  mkApp (app_world a) (app_files a) m.

(** A change of the directory is seen by the loader. *)
Definition set_files (files : gmap string (list Byte.byte)) (a : App) : App :=
  let w := app_world a in
  mkApp (mkWorld (read_directory files) (w_index w) (w_pptx w) (w_log w))
        files (app_messages a).

Definition messages (a : App) : list Message := default [] (app_messages a).

(** Computations of a run. *)
Definition P (A : Type) : Type := App -> App * (Stop + A).

#[local] Instance P_ret : MRet P := fun A x a => (a, inr x).
#[local] Instance P_bind : MBind P := fun A B f m a =>
  match m a with
  | (a', inl e) => (a', inl e)
  | (a', inr x) => f x a'
  end.

Definition stop {A} (e : Stop) : P A := fun a => (a, inl e).
Definition get_app : P App := fun a => (a, inr a).
Definition modify_app (f : App -> App) : P unit := fun a => (f a, inr tt).

(** A call into the pipeline; what it raises stops the run. *)
Definition lift_world {A} (m : M A) : P A := fun a =>
  match m (app_world a) with
  | (w', inl e) => (set_world w' a, inl (StopRaise e))
  | (w', inr x) => (set_world w' a, inr x)
  end.

(** A file of the data directory written under a safe name: a new file, or
    a new content for the file of that name. *)
Definition write_file (files : gmap string (list Byte.byte)) (f : UploadedFile)
    : gmap string (list Byte.byte) :=
  <[up_name f := up_buffer f]> files.

Definition store_upload (a : App) (f : UploadedFile) : App :=
  set_files (write_file (app_files a) f) a.

(** One iteration of the loop of [setup_sidebar] over the uploaded files:
    [open(os.path.join(UPLOAD_PATH, uploaded_file.name), "wb")] and the
    write.  Under a safe name the file is written in the data directory.
    Any other name may leave the directory (["../x"], an absolute path),
    point into a directory that is missing (["sub/x"]) or be refused by
    [open]: the model does not follow the run there. *)
Definition write_uploaded (f : UploadedFile) : P unit :=
  if safe_name (up_name f) then modify_app (fun a => store_upload a f)
  else stop StopUnmodelled.

(** The loop of [setup_sidebar] over the uploaded files (an empty list does
    nothing, as under [if uploaded_files:]). *)
Fixpoint save_uploaded_files (uploaded : list UploadedFile) : P unit :=
  match uploaded with
  | [] => mret tt
  | f :: rest => write_uploaded f;; save_uploaded_files rest
  end.

(** The state after the uploads of a run whose names are all safe. *)
Definition after_uploads (uploaded : list UploadedFile) (a : App) : App :=
  foldl store_upload a uploaded.

(** [display_uploaded_files]: the files are listed, each with its Delete
    button, whose widget key is the name of the file; the button that was
    clicked removes its file and restarts the script.  A file named
    ["messages"] gives its button the key that [main] uses in the session
    state: the model does not follow the run there. *)
Definition display_uploaded_files (clicked : option string) : P (gset string) :=
  a ← get_app;
  let files := dom (app_files a) in
  if decide ("messages" ∈ files) then stop StopUnmodelled
  else
    match clicked with
    | Some file =>
        if decide (file ∈ files) then
          modify_app (set_files (delete file (app_files a)));;
          stop StopRerun
        else mret files
    | None => mret files
    end.

(** [setup_download_section]: the file is read and offered when it exists. *)
Definition setup_download_section : P (option Presentation) :=
  a ← get_app; mret (w_pptx (app_world a)).

(** [setup_sidebar]. *)
Definition setup_sidebar (ui : Inputs) : P (gset string * option Presentation) :=
  save_uploaded_files (in_uploaded ui);;
  (if in_update ui then lift_world update_vector_database else mret tt);;
  (if in_reset ui then lift_world reset_vector_database else mret tt);;
  files ← display_uploaded_files (in_delete ui);
  download ← setup_download_section;
  mret (files, download).

(** The chat of [main]: a query text that is not empty is answered and both
    messages are appended. *)
Definition answer_query (function : string) (query_text : option string) : P unit :=
  match query_text with
  | Some query_text =>
      if Str.truthy query_text then
        prompt_type ← match function_map !! function with
                      | Some key => mret key
                      | None => stop (StopRaise (KeyError function))
                      end;
        response_text ← lift_world (query_database query_text prompt_type);
        modify_app (fun a => set_messages
          (Some (messages a ++ [mkMessage "user" query_text;
                                mkMessage "bot" response_text])) a)
      else mret tt
  | None => mret tt
  end.

(** [if 'messages' not in st.session_state: st.session_state.messages = []]. *)
Definition init_messages (a : App) : App :=
  match app_messages a with
  | Some _ => a
  | None => set_messages (Some []) a
  end.

(** [main]: one run of the script. *)
Definition main (ui : Inputs) : P PageView :=
  sidebar ← setup_sidebar ui;
  let function := in_function ui in
  modify_app init_messages;;
  answer_query function (in_query ui);;
  a ← get_app;
  mret (mkView sidebar.1 sidebar.2 (messages a)).

(** The runs of a browser session, one after the other. *)
Definition runs (uis : list Inputs) (a : App) : App :=
  foldl (fun a ui => (main ui a).1) a uis.

End Page.

(** The messages of answered queries: the query, then the answer. *)
Definition exchange (qa : string * string) : list Message :=
  [mkMessage "user" qa.1; mkMessage "bot" qa.2].

(** The world after the two buttons of the sidebar. *)
Definition after_buttons `{svc : Services} (ui : Inputs) (w : World) : World :=
  let w1 := if in_update ui then (update_vector_database w).1 else w in
  if in_reset ui then (reset_vector_database w1).1 else w1.

(** The files of the directory after the loop of the uploader. *)
Definition uploaded_into `{svc : Services} `{ldr : LoaderService}
    (ui : Inputs) (a : App) : gmap string (list Byte.byte) :=
  foldl write_file (app_files a) (in_uploaded ui).

(** The world when the sidebar reaches the listing of the files. *)
Definition world_at_listing `{svc : Services} `{ldr : LoaderService}
    (ui : Inputs) (a : App) : World :=
  after_buttons ui (app_world (after_uploads (in_uploaded ui) a)).

(** The runs that the model follows to their end: every uploaded name is
    safe, and no file of the directory is named ["messages"]. *)
Definition modelled_run `{svc : Services} (ui : Inputs) (a : App) : Prop :=
  Forall (fun f => safe_name (up_name f) = true) (in_uploaded ui)
  /\ app_files a !! "messages" = None.

(** ** Measures of a pagination *)

(** [content.lstrip("\n")]: the content without its leading separators. *)
Fixpoint lstrip_nl (s : string) : string :=
  match s with
  | "" => ""
  | String c rest => if Ascii.eqb c Str.nl_char then lstrip_nl rest else s
  end.

(** The first line of a body. *)
Definition first_line (body : string) : string := hd "" (Str.split_lines body).

(** Every break between two consecutive bodies was forced: the body before
    the break and the first line after it do not pass the test of the loop
    together. *)
Fixpoint breaks_forced (max_chars : nat) (bs : list string) : Prop :=
  match bs with
  | b :: (b' :: _) as tl =>
      max_chars < Str.len b + Str.len (first_line b') /\ breaks_forced max_chars tl
  | _ => True
  end.

(** The accumulator that the loop ends with when it never flushes. *)
Fixpoint glue (cur : string) (lines : list string) : string :=
  match lines with
  | [] => cur
  | line :: rest =>
      glue (if decide (cur = "") then line else cur +:+ Str.nl +:+ line) rest
  end.

(** The characters of the lines, with one separator for each. *)
Fixpoint weight (lines : list string) : nat :=
  match lines with
  | [] => 0
  | line :: rest => S (Str.len line) + weight rest
  end.

(** Whether the loop, with [cur] accumulated and [lines] to come, appends
    some line to an accumulator that is empty: such an accumulator holds one
    empty line, and the line appended to it gets no newline. *)
Fixpoint appends_to_blank (max_chars : nat) (lines : list string) (cur : string)
    : bool :=
  match lines with
  | [] => false
  | line :: rest =>
      if decide (max_chars < Str.len cur + Str.len line) then
        appends_to_blank max_chars rest line
      else if decide (cur = "") then true
      else appends_to_blank max_chars rest (cur +:+ Str.nl +:+ line)
  end.

(** The lines that the slides reproduce exactly: the first line is within
    the budget (it is not preceded by an empty slide), and after it no line
    is appended to an empty accumulator. *)
Definition reproduced (max_chars : nat) (lines : list string) : bool :=
  match lines with
  | [] => true
  | first :: rest =>
      (Str.len first <=? max_chars) && negb (appends_to_blank max_chars rest first)
  end.

(** ** Concrete inputs and a small instance of the services *)

Definition two_half_lines : string :=
  Str.replicate 300 "a" +:+ Str.nl +:+ Str.replicate 300 "b".

Definition hello_world_foobarbaz : string :=
  "hello" +:+ Str.nl +:+ "world" +:+ Str.nl +:+ "foobarbaz!".

(** An instance to run the pipeline on: vectors and scores are numbers, the
    embedding of a text is its length, every document is one chunk with the
    id [source:page:0] for page 0, an id matches the namespace when it is the
    id of one of the chunks, the search returns the first [k] entries. *)
Definition small_services : Services := {|
  Vector := nat;
  Score := nat;
  embed := fun text => Some (String.length text);
  split_documents :=
    map (fun d => mkChunk (doc_text d) (doc_source_path d) (doc_page_number d) 0
                          (doc_source_path d +:+ ":0:0"));
  matches_namespace := fun chunks i => bool_decide (i ∈ map chunk_id chunks);
  similarity_search_with_score := fun idx _ k =>
    take k (map (fun kv => (mkHit (entry_text kv.2) (Some kv.1), 0))
                (map_to_list idx));
  format_prompt := fun _ context question => context +:+ question;
  invoke := fun prompt => prompt
|}.

(** A corpus of one document whose chunk is in the index with an old vector. *)
Definition small_world : World (svc := small_services) :=
  mkWorld [mkDocument "a.pdf" 0 "alpha"]
          {["a.pdf:0:0" := mkEntry (V := nat) 99 "old" "a.pdf" 0 0]}
          None [].

(** The same corpus, with an id in the index whose document is gone. *)
Definition stale_world : World (svc := small_services) :=
  mkWorld [mkDocument "a.pdf" 0 "alpha"]
          {["gone.pdf:0:0" := mkEntry (V := nat) 7 "gone" "gone.pdf" 0 0]}
          None [].


(** A loader for the small instance: one document for each file, its path
    the name of the file. *)
Definition small_loader : LoaderService := {|
  read_directory := fun files =>
    map (fun kv => mkDocument kv.1 0 "alpha") (map_to_list files)
|}.

(** A fresh browser session on the small world, with one file in the
    directory. *)
Definition small_app : App (svc := small_services) :=
  mkApp small_world {["a.pdf" := []]} None.

(** A run that asks for a summary, and a run that clicks Delete on the file. *)
Definition ui_ask : Inputs :=
  mkInputs [] false false None "Summary Generation" (Some "Summary of alpha").

Definition ui_delete : Inputs :=
  mkInputs [] false false (Some "a.pdf") "Chat" (Some "What is alpha?").

Definition ui_idle : Inputs :=
  mkInputs [mkUploaded "b.pdf" []] false false None "Chat" None.

(** ** Runs on concrete inputs *)

Example split_ex : Str.split_lines ("a" +:+ Str.nl +:+ Str.nl +:+ "b" +:+ Str.nl) = ["a"; ""; "b"; ""].
Proof. reflexivity. Qed.

Example lower_ex : Str.lower "Case STUDY on Q1" = "case study on q1".
Proof. reflexivity. Qed.

Example paginate_ex :
  bodies (paginate 10 "t" ("hello" +:+ Str.nl +:+ "world" +:+ Str.nl +:+ "foobarbaz!"))
  = ["hello" +:+ Str.nl +:+ "world"; "foobarbaz!"].
Proof. reflexivity. Qed.

(** ** Facts about lines *)

Module StrFacts.
Import Str.

Lemma app_nil_l (b : string) : "" +:+ b = b.
Proof. reflexivity. Qed.

Lemma app_cons (c : ascii) (a b : string) : String c a +:+ b = String c (a +:+ b).
Proof. reflexivity. Qed.

Ltac str_simpl := simpl; rewrite ?app_cons, ?app_nil_l; simpl.

Lemma truthy_spec (s : string) : truthy s = true <-> s ≠ "".
Proof. destruct s; simpl; split; congruence. Qed.

Lemma len_app (a b : string) : len (a +:+ b) = len a + len b.
Proof. unfold len. induction a as [|c a IH]; str_simpl; [done | by f_equal]. Qed.

Lemma len_nl : len nl = 1.
Proof. reflexivity. Qed.

Lemma app_empty_r (a : string) : a +:+ "" = a.
Proof. induction a as [|c a IH]; str_simpl; [done | by f_equal]. Qed.

Lemma app_assoc (a b c : string) : (a +:+ b) +:+ c = a +:+ b +:+ c.
Proof. induction a as [|x a IH]; str_simpl; [done | by f_equal]. Qed.

Lemma split_lines_not_nil (s : string) : split_lines s ≠ [].
Proof.
  induction s as [|c s IH]; simpl; [done |].
  destruct (Ascii.eqb c nl_char); [done |].
  by destruct (split_lines s).
Qed.

Lemma join_lines_cons (l : string) (ls : list string) :
  ls ≠ [] -> join_lines (l :: ls) = l +:+ nl +:+ join_lines ls.
Proof. by destruct ls. Qed.

(** Joining what [split] returned gives the string back. *)
Lemma join_split (s : string) : join_lines (split_lines s) = s.
Proof.
  induction s as [|c s IH]; [done |].
  simpl. destruct (Ascii.eqb_spec c nl_char) as [->|Hc].
  - rewrite join_lines_cons by apply split_lines_not_nil.
    by rewrite IH.
  - pose proof (split_lines_not_nil s) as Hs.
    destruct (split_lines s) as [|l ls]; [done |].
    destruct ls as [|l' ls].
    + change (join_lines [l]) with l in IH. by subst.
    + rewrite join_lines_cons in IH by done.
      rewrite join_lines_cons by done. rewrite app_cons. by rewrite IH.
Qed.

(** No line that [split] returns holds a separator. *)
Lemma split_lines_no_nl (s : string) :
  Forall (fun l => no_nl l = true) (split_lines s).
Proof.
  induction s as [|c s IH]; simpl.
  - by constructor.
  - destruct (Ascii.eqb c nl_char) eqn:Hc.
    + by constructor.
    + destruct (split_lines s) as [|l ls]; simpl.
      * constructor; [simpl; by rewrite Hc | done].
      * inversion IH; subst. constructor; [|done].
        simpl. rewrite Hc. done.
Qed.

Lemma split_lines_line (s : string) : no_nl s = true -> split_lines s = [s].
Proof.
  induction s as [|c s IH]; simpl; [done |].
  intros [Hc Hs]%andb_true_iff.
  apply negb_true_iff in Hc. rewrite Hc, (IH Hs). done.
Qed.

(** Splitting distributes over a separator. *)
Lemma split_lines_app_nl (a b : string) :
  split_lines (a +:+ nl +:+ b) = split_lines a ++ split_lines b.
Proof.
  induction a as [|c a IH]; str_simpl.
  - done.
  - destruct (Ascii.eqb c nl_char); rewrite IH; [done |].
    pose proof (split_lines_not_nil a).
    by destruct (split_lines a).
Qed.

End StrFacts.

(** ** The loop of the paginator *)

Section PaginatorFacts.

Variable max_chars : nat.
Variable title : string.

(** The loop followed by the last flush, from any loop state, adds to the
    presentation the slides of the specification's state machine. *)
Lemma loop_spec (lines : list string) (st : PagState) :
  final_flush title (foldl (page_step max_chars title) st lines)
  = pg_prs st ++ spec_paginator max_chars title lines (pg_current st) (pg_first st).
Proof.
  revert st.
  induction lines as [|line rest IH]; intros [prs cur first]; simpl.
  - done.
  - rewrite IH. unfold page_step; simpl.
    destruct (Nat.ltb_spec max_chars (Str.len cur + Str.len line)) as [Hlt|Hge]; simpl.
    + rewrite decide_True by done.
      unfold add_content_to_slide. by rewrite <- app_assoc.
    + rewrite decide_False by lia.
      destruct cur as [|c cur]; simpl; [done |].
      by rewrite StrFacts.app_assoc.
Qed.

(** Only the first flush can carry the title. *)
Lemma spec_untitled (lines : list string) (cur : string) :
  Forall (fun s => slide_title s = None) (spec_paginator max_chars title lines cur false).
Proof.
  revert cur. induction lines as [|line rest IH]; intros cur; simpl.
  - by repeat constructor.
  - repeat case_decide; first [apply IH | constructor; [done | apply IH]].
Qed.

Lemma spec_head (lines : list string) (cur : string) (first : bool) :
  exists body rest,
    spec_paginator max_chars title lines cur first
    = mkSlide (if first then Some title else None) body :: rest
    /\ Forall (fun s => slide_title s = None) rest.
Proof.
  revert cur. induction lines as [|line rest IH]; intros cur; simpl.
  - exists cur, []. split; [done | constructor].
  - repeat case_decide; try apply IH.
    exists cur, (spec_paginator max_chars title rest line false).
    split; [done | apply spec_untitled].
Qed.

Lemma spec_not_nil (lines : list string) (cur : string) (first : bool) :
  spec_paginator max_chars title lines cur first ≠ [].
Proof. destruct (spec_head lines cur first) as (b & r & -> & _). done. Qed.

(** Every body is within the budget plus the one separator that the test
    of the loop does not count, or it is one of the lines. *)
Lemma spec_body_bound (all lines : list string) (cur : string) (first : bool) :
  lines ⊆ all ->
  Str.len cur <= max_chars + 1 \/ cur ∈ all ->
  Forall (fun b => Str.len b <= max_chars + 1 \/ b ∈ all)
         (bodies (spec_paginator max_chars title lines cur first)).
Proof.
  revert cur first. induction lines as [|line rest IH]; intros cur first Hsub Hcur; simpl.
  - constructor; [done | constructor].
  - assert (rest ⊆ all) as Hrest
      by (intros x Hx; apply Hsub, elem_of_cons; by right).
    assert (line ∈ all) as Hline
      by (apply Hsub, elem_of_cons; by left).
    repeat case_decide; simpl.
    + constructor; [done |]. apply IH; auto.
    + apply IH; auto.
    + apply IH; [done |]. left.
      rewrite !StrFacts.len_app, StrFacts.len_nl. lia.
Qed.

(** When the accumulator is not empty and no line to come is empty, the
    bodies joined by the separator are the accumulator and the lines joined
    by the separator. *)
Lemma spec_join_exact (lines : list string) (cur : string) (first : bool) :
  cur ≠ "" ->
  Forall (fun l => l ≠ "") lines ->
  Str.join_lines (bodies (spec_paginator max_chars title lines cur first))
  = Str.join_lines (cur :: lines).
Proof.
  revert cur first. induction lines as [|line rest IH]; intros cur first Hcur Hall; simpl.
  - done.
  - inversion Hall as [|? ? Hline Hrest]; subst.
    repeat case_decide; simpl; try done.
    + rewrite StrFacts.join_lines_cons.
      * rewrite IH by done. by rewrite (StrFacts.join_lines_cons cur).
      * unfold bodies. intros Hnil%fmap_nil_inv. by apply spec_not_nil in Hnil.
    + rewrite IH.
      * rewrite (StrFacts.join_lines_cons cur) by done.
        destruct rest as [|l' rest'].
        { done. }
        rewrite !StrFacts.join_lines_cons by done.
        by rewrite !StrFacts.app_assoc.
      * by destruct cur.
      * done.
Qed.

(** The lines that are not empty come out as they went in. *)
Lemma spec_nonblank (lines : list string) (cur : string) (first : bool) :
  Forall (fun l => Str.no_nl l = true) lines ->
  nonblank (body_lines (spec_paginator max_chars title lines cur first))
  = nonblank (Str.split_lines cur ++ lines).
Proof.
  unfold nonblank, body_lines.
  revert cur first. induction lines as [|line rest IH]; intros cur first Hall; simpl.
  - by rewrite !app_nil_r.
  - inversion Hall as [|? ? Hline Hrest]; subst.
    repeat case_decide; simpl.
    + rewrite !filter_app. f_equal.
      rewrite IH by done. rewrite StrFacts.split_lines_line; done.
    + subst cur. rewrite IH by done.
      rewrite StrFacts.split_lines_line by done. simpl.
      rewrite (filter_cons_False _ ""); [done | intros ?; congruence].
    + rewrite IH by done.
      rewrite StrFacts.split_lines_app_nl, (StrFacts.split_lines_line line) by done.
      by rewrite <- app_assoc.
Qed.

End PaginatorFacts.

(** ** The paginator: what one call adds *)

Lemma add_slide_spec (max_chars : nat) (prs : Presentation) (title content : string) :
  add_slide_with_content_at max_chars prs title content
  = prs ++ spec_paginator max_chars (normalize_title title)
             (Str.split_lines content) "" true.
Proof. unfold add_slide_with_content_at. by rewrite loop_spec. Qed.

Lemma paginate_spec (max_chars : nat) (title content : string) :
  paginate max_chars title content
  = spec_paginator max_chars (normalize_title title) (Str.split_lines content) "" true.
Proof. unfold paginate. by rewrite add_slide_spec. Qed.

Lemma add_slide_paginate (max_chars : nat) (prs : Presentation) (title content : string) :
  add_slide_with_content_at max_chars prs title content
  = prs ++ paginate max_chars title content.
Proof. by rewrite add_slide_spec, paginate_spec. Qed.

Lemma paginate_not_nil (max_chars : nat) (title content : string) :
  paginate max_chars title content ≠ [].
Proof. rewrite paginate_spec. apply spec_not_nil. Qed.

(** What the loop does guarantee about the size of a body: the budget plus
    one character, the separator that the test [len(current_content) +
    len(paragraph) > MAX_CHARS_PER_SLIDE] leaves out; a longer body is a line
    of the input by itself. *)
Lemma body_within_budget_plus_separator (max_chars : nat) (title content : string) :
  Forall (fun b => Str.len b <= max_chars + 1 \/ b ∈ Str.split_lines content)
         (bodies (paginate max_chars title content)).
Proof.
  rewrite paginate_spec. apply spec_body_bound; [done |].
  left. simpl. lia.
Qed.

(** The lines that are not empty are all on the slides, in their order. *)
Lemma nonblank_lines_preserved (max_chars : nat) (title content : string) :
  nonblank (body_lines (paginate max_chars title content))
  = nonblank (Str.split_lines content).
Proof.
  rewrite paginate_spec, spec_nonblank by apply StrFacts.split_lines_no_nl.
  simpl. unfold nonblank.
  rewrite filter_cons_False; [done | intros ?; congruence].
Qed.

(** C1. The bound on the body does not hold of the code: a content of two
    lines of 300 characters, neither over the budget of 600, is put on one
    slide whose body holds both lines and has 601 characters. *)
Theorem C1_two_lines_exceed_budget :
  Str.split_lines two_half_lines = [Str.replicate 300 "a"; Str.replicate 300 "b"]
  /\ Forall (fun l => Str.len l <= MAX_CHARS_PER_SLIDE) (Str.split_lines two_half_lines)
  /\ bodies (add_slide_with_content [] "t" two_half_lines) = [two_half_lines]
  /\ Str.len two_half_lines = MAX_CHARS_PER_SLIDE + 1.
Proof.
  split; [by vm_compute |].
  split; [| split; by vm_compute].
  repeat constructor; vm_compute; lia.
Qed.

(** C3. With a budget of 10 the lines "hello", "world", "foobarbaz!" give two
    slides, not three: "hello" and "world" share the first one, because
    5 + 5 > 10 is false. *)
Theorem C3_example_gives_two_slides :
  Str.split_lines hello_world_foobarbaz = ["hello"; "world"; "foobarbaz!"]
  /\ bodies (paginate 10 "t" hello_world_foobarbaz)
     = ["hello" +:+ Str.nl +:+ "world"; "foobarbaz!"]
  /\ length (paginate 10 "t" hello_world_foobarbaz) = 2.
Proof. by vm_compute. Qed.

(** C4. The loop of [add_slide_with_content] is the state machine of the
    specification: started with an empty accumulator and the flag set, it
    handles the lines in order, flushes the accumulator (titled only under
    the flag, which it clears) before a line that would bring
    len(current_content) + len(line) over the budget and restarts from that
    line, and otherwise appends the line, after a newline when the
    accumulator is not empty; the slides go to the end of the presentation. *)
Theorem C4_loop_is_state_machine (max_chars : nat) (prs : Presentation)
    (title content : string) :
  (forall (st : PagState) (lines : list string),
     final_flush (normalize_title title)
       (foldl (page_step max_chars (normalize_title title)) st lines)
     = pg_prs st ++ spec_paginator max_chars (normalize_title title) lines
                      (pg_current st) (pg_first st))
  /\ add_slide_with_content_at max_chars prs title content
     = prs ++ spec_paginator max_chars (normalize_title title)
                (Str.split_lines content) "" true.
Proof.
  split.
  - intros st lines. apply loop_spec.
  - unfold add_slide_with_content_at. by rewrite loop_spec.
Qed.

(** C5. Pagination is total and always adds at least one slide; for the
    empty content it adds exactly one slide, titled, with an empty body: the
    last flush happens also when the accumulator is empty. *)
Theorem C5_at_least_one_slide (max_chars : nat) (prs : Presentation)
    (title content : string) :
  (exists s new, add_slide_with_content_at max_chars prs title content
                 = prs ++ s :: new)
  /\ length prs < length (add_slide_with_content_at max_chars prs title content)
  /\ add_slide_with_content_at max_chars prs title ""
     = prs ++ [mkSlide (Some (normalize_title title)) ""].
Proof.
  rewrite add_slide_paginate.
  pose proof (paginate_not_nil max_chars title content) as Hne.
  destruct (paginate max_chars title content) as [|s new] eqn:Hp; [done |].
  split; [by exists s, new |].
  split; [rewrite length_app; simpl; lia |].
  by rewrite add_slide_spec.
Qed.

(** ** Title normalisation *)

Lemma triggered_iff (low : string) :
  existsb (fun case => Str.contains case low) special_cases = true
  <-> exists c, c ∈ special_cases /\ Str.contains c low = true.
Proof.
  rewrite existsb_exists. split; intros (c & Hc & Hlow); exists c.
  - by rewrite list_elem_of_In.
  - by rewrite <- list_elem_of_In.
Qed.

Lemma not_triggered_iff (low : string) :
  existsb (fun case => Str.contains case low) special_cases = false
  <-> forall c, c ∈ special_cases -> Str.contains c low = false.
Proof.
  split.
  - intros Hex c Hc. destruct (Str.contains c low) eqn:Hlow; [|done].
    assert (existsb (fun case => Str.contains case low) special_cases = true) as Ht
      by (apply triggered_iff; eauto).
    congruence.
  - intros Hall. destruct (existsb _ special_cases) eqn:Hex; [|done].
    apply triggered_iff in Hex as (c & Hc & Hlow).
    rewrite (Hall c Hc) in Hlow. done.
Qed.

(** The slides of one answer: the first carries the normalised title, no
    other carries a title. *)
Lemma first_slide_titled (max_chars : nat) (title content : string) :
  exists body rest,
    paginate max_chars title content
    = mkSlide (Some (normalize_title title)) body :: rest
    /\ Forall (fun s => slide_title s = None) rest.
Proof. rewrite paginate_spec. apply spec_head. Qed.

(** C6. A title whose lowercase form contains one of the trigger substrings
    is rewritten to one of "Summary:", "Case study:", "Q&A:": "Summary:" when
    it contains "summary", else "Case study:" when it contains "case study"
    or "case studies", else "Q&A:"; a title with no trigger is kept as it
    is; of the slides of one answer only the first carries the title. *)
Theorem C6_title_normalization (title : string) :
  let low := Str.lower title in
  let t := normalize_title title in
  ((exists c, c ∈ special_cases /\ Str.contains c low = true) ->
     (t = "Summary:" \/ t = "Case study:" \/ t = "Q&A:")
     /\ (Str.contains "summary" low = true -> t = "Summary:")
     /\ (Str.contains "summary" low = false ->
         Str.contains "case study" low = true
         \/ Str.contains "case studies" low = true ->
         t = "Case study:")
     /\ (Str.contains "summary" low = false ->
         Str.contains "case study" low = false ->
         Str.contains "case studies" low = false ->
         t = "Q&A:"))
  /\ ((forall c, c ∈ special_cases -> Str.contains c low = false) -> t = title)
  /\ (forall max_chars content,
        exists body rest,
          paginate max_chars title content = mkSlide (Some t) body :: rest
          /\ Forall (fun s => slide_title s = None) rest).
Proof.
  intros low t. subst low t. split; [|split].
  - intros Htrig%triggered_iff. unfold normalize_title. rewrite Htrig.
    destruct (Str.contains "summary" _) eqn:Hs;
      destruct (Str.contains "case study" _) eqn:Hc;
      destruct (Str.contains "case studies" _) eqn:Hcs; simpl;
      repeat split; auto; try congruence; intros ? [?|?]; congruence.
  - intros Hnone%not_triggered_iff. unfold normalize_title. by rewrite Hnone.
  - intros max_chars content. apply first_slide_titled.
Qed.

(** C9. The checks have a fixed precedence: a title whose lowercase form
    contains "summary" and also "case study" or "case studies" becomes
    "Summary:"; a triggered title that contains none of the three becomes
    "Q&A:". *)
Theorem C9_title_precedence (title : string) :
  let low := Str.lower title in
  (Str.contains "summary" low = true ->
   Str.contains "case study" low = true \/ Str.contains "case studies" low = true ->
   normalize_title title = "Summary:")
  /\ ((exists c, c ∈ special_cases /\ Str.contains c low = true) ->
      Str.contains "summary" low = false ->
      Str.contains "case study" low = false ->
      Str.contains "case studies" low = false ->
      normalize_title title = "Q&A:").
Proof.
  intros low. subst low. split.
  - intros Hs _. unfold normalize_title.
    assert (existsb (fun case => Str.contains case (Str.lower title)) special_cases = true)
      as -> by (apply triggered_iff; exists "summary"; split; [apply elem_of_cons; by left | done]).
    by rewrite Hs.
  - intros Htrig%triggered_iff Hs Hc Hcs. unfold normalize_title.
    by rewrite Htrig, Hs, Hc, Hcs.
Qed.

(** ** Completeness of the pagination *)

(** C2 as it was stated is false of the code: a content that starts with an
    empty line loses that line, because the newline is added only to a
    non-empty accumulator. *)
Lemma C2_leading_blank_line_lost :
  Str.join_lines (bodies (add_slide_with_content [] "t" (Str.nl +:+ "abc")))
  ≠ Str.nl +:+ "abc".
Proof. by vm_compute. Qed.

(** A first line over the budget is preceded by a slide with an empty body,
    so the bodies joined by the separator start with a newline that the
    content does not have. *)
Example oversized_first_line_adds_slide :
  bodies (paginate 3 "t" "abcd") = [""; "abcd"].
Proof. reflexivity. Qed.

(** An empty line that meets an accumulator over the budget is flushed
    away: the separator of the line after it is lost. *)
Example blank_after_full_slide_lost :
  bodies (paginate 10 "t" ("hello" +:+ Str.nl +:+ "world" +:+ Str.nl +:+ Str.nl +:+ "x"))
  = ["hello" +:+ Str.nl +:+ "world"; "x"].
Proof. reflexivity. Qed.

(** A content with an empty line in the middle or at the end, and the empty
    content, come back exactly. *)
Example blank_lines_inside_are_kept :
  Str.join_lines (bodies (add_slide_with_content [] "t" ("a" +:+ Str.nl +:+ Str.nl +:+ "b")))
  = "a" +:+ Str.nl +:+ Str.nl +:+ "b"
  /\ Str.join_lines (bodies (add_slide_with_content [] "t" ("abc" +:+ Str.nl)))
     = "abc" +:+ Str.nl
  /\ Str.join_lines (bodies (add_slide_with_content [] "t" "")) = "".
Proof. by vm_compute. Qed.

Lemma join_lines_len_cons (x : string) (ls : list string) :
  ls ≠ [] ->
  Str.len (Str.join_lines (x :: ls)) = Str.len x + 1 + Str.len (Str.join_lines ls).
Proof.
  intros Hne. rewrite StrFacts.join_lines_cons by done.
  rewrite !StrFacts.len_app, StrFacts.len_nl. lia.
Qed.

Section Reproduction.

Variable max_chars : nat.
Variable title : string.

Lemma bodies_not_nil (lines : list string) (cur : string) (first : bool) :
  bodies (spec_paginator max_chars title lines cur first) ≠ [].
Proof.
  unfold bodies. intros Hnil%fmap_nil_inv. by apply spec_not_nil in Hnil.
Qed.

(** With no line appended to an empty accumulator, the bodies joined are the
    accumulator and the lines joined. *)
Lemma spec_join_eq (lines : list string) (cur : string) (first : bool) :
  appends_to_blank max_chars lines cur = false ->
  Str.join_lines (bodies (spec_paginator max_chars title lines cur first))
  = Str.join_lines (cur :: lines).
Proof.
  revert cur first. induction lines as [|line rest IH]; intros cur first Hno; simpl in *.
  - done.
  - repeat case_decide; simpl; try done.
    + rewrite StrFacts.join_lines_cons by apply bodies_not_nil.
      rewrite IH by done. by rewrite (StrFacts.join_lines_cons cur).
    + rewrite IH by done.
      rewrite (StrFacts.join_lines_cons cur) by done.
      destruct rest as [|l' rest']; [done |].
      rewrite !StrFacts.join_lines_cons by done.
      by rewrite !StrFacts.app_assoc.
Qed.

(** The bodies joined are never longer than the accumulator and the lines
    joined, and shorter when a line is appended to an empty accumulator. *)
Lemma spec_join_le (lines : list string) (cur : string) (first : bool) :
  Str.len (Str.join_lines (bodies (spec_paginator max_chars title lines cur first)))
  <= Str.len (Str.join_lines (cur :: lines)).
Proof.
  revert cur first. induction lines as [|line rest IH]; intros cur first; simpl.
  - done.
  - rewrite (join_lines_len_cons cur) by done.
    repeat case_decide; simpl.
    + rewrite join_lines_len_cons by apply bodies_not_nil.
      specialize (IH line false). lia.
    + specialize (IH line first). lia.
    + specialize (IH (cur +:+ Str.nl +:+ line) first).
      destruct rest as [|l' rest'].
      * change (Str.join_lines [cur +:+ Str.nl +:+ line])
          with (cur +:+ Str.nl +:+ line) in IH.
        change (Str.join_lines [line]) with line.
        rewrite !StrFacts.len_app, StrFacts.len_nl in IH. lia.
      * rewrite join_lines_len_cons in IH by done.
        rewrite (join_lines_len_cons line) by done.
        rewrite !StrFacts.len_app, StrFacts.len_nl in IH. lia.
Qed.

Lemma spec_join_lt (lines : list string) (cur : string) (first : bool) :
  appends_to_blank max_chars lines cur = true ->
  Str.len (Str.join_lines (bodies (spec_paginator max_chars title lines cur first)))
  < Str.len (Str.join_lines (cur :: lines)).
Proof.
  revert cur first. induction lines as [|line rest IH]; intros cur first Hyes; simpl in *.
  - done.
  - rewrite (join_lines_len_cons cur) by done.
    repeat case_decide; simpl.
    + rewrite join_lines_len_cons by apply bodies_not_nil.
      specialize (IH line false Hyes). lia.
    + pose proof (spec_join_le rest line first). lia.
    + specialize (IH (cur +:+ Str.nl +:+ line) first Hyes).
      destruct rest as [|l' rest'].
      * change (Str.join_lines [cur +:+ Str.nl +:+ line])
          with (cur +:+ Str.nl +:+ line) in IH.
        change (Str.join_lines [line]) with line.
        rewrite !StrFacts.len_app, StrFacts.len_nl in IH. lia.
      * rewrite join_lines_len_cons in IH by done.
        rewrite (join_lines_len_cons line) by done.
        rewrite !StrFacts.len_app, StrFacts.len_nl in IH. lia.
Qed.

End Reproduction.

(** What is joined after an empty first body starts with a newline; a line
    that is not empty does not. *)
Lemma join_lines_blank_head (ls : list string) (l : string) (rest : list string) :
  ls ≠ [] -> l ≠ "" -> Str.no_nl l = true ->
  Str.join_lines ("" :: ls) ≠ Str.join_lines (l :: rest).
Proof.
  intros Hls Hl Hno. rewrite StrFacts.join_lines_cons by done.
  destruct l as [|c l]; [done |]. simpl in Hno.
  apply andb_true_iff in Hno as [Hc _]. apply negb_true_iff in Hc.
  rewrite StrFacts.app_nil_l. unfold Str.nl. rewrite StrFacts.app_cons.
  destruct rest as [|l' rest'].
  - change (Str.join_lines [String c l]) with (String c l).
    intros [= Heq _]. rewrite <- Heq, Ascii.eqb_refl in Hc. done.
  - rewrite StrFacts.join_lines_cons by done. rewrite StrFacts.app_cons.
    intros [= Heq _]. rewrite <- Heq, Ascii.eqb_refl in Hc. done.
Qed.

(** C2, amended. For every content the lines that are not empty are on the
    slides, all of them and in their order; and the bodies of the slides, in
    order, joined by the newline separator, are exactly the content if and
    only if the first line of the content is within the budget and, after
    it, no line is appended to an empty accumulator.  After the first line
    an accumulator is empty only when it holds a single empty line: the
    first line of the content, or an empty line that was put on a new slide
    because the accumulator before it was over the budget. *)
Theorem C2_completeness_amended (max_chars : nat) (title content : string) :
  nonblank (body_lines (paginate max_chars title content))
  = nonblank (Str.split_lines content)
  /\ (Str.join_lines (bodies (paginate max_chars title content)) = content
      <-> reproduced max_chars (Str.split_lines content) = true).
Proof.
  split; [apply nonblank_lines_preserved |].
  rewrite paginate_spec.
  pose proof (StrFacts.split_lines_no_nl content) as Hno.
  pose proof (StrFacts.split_lines_not_nil content) as Hnil.
  pose proof (StrFacts.join_split content) as Hjoin.
  remember (Str.split_lines content) as lines eqn:Hlines.
  rewrite <- Hjoin. clear Hjoin Hlines.
  destruct lines as [|l0 rest]; [done |].
  inversion Hno as [|? ? Hl0 _]; subst.
  unfold reproduced. simpl spec_paginator.
  destruct (Nat.leb_spec (Str.len l0) max_chars) as [Hfit|Hbig]; simpl.
  - rewrite decide_False by (simpl; lia).
    destruct (appends_to_blank max_chars rest l0) eqn:Hap; simpl.
    + split; [| done]. intros Heq.
      pose proof (spec_join_lt max_chars (normalize_title title) rest l0 true Hap) as Hlt.
      rewrite Heq in Hlt. lia.
    + split; [done |]. intros _. by apply spec_join_eq.
  - rewrite decide_True by (simpl; lia).
    split; [| done]. intros Heq. exfalso.
    revert Heq. simpl bodies.
    apply join_lines_blank_head; [apply bodies_not_nil | | done].
    intros ->. simpl in Hbig. lia.
Qed.

(** A content with an empty line between two lines comes back exactly. *)
Lemma C2_completeness_amended_witness :
  Str.join_lines (bodies (paginate 10 "t" ("a" +:+ Str.nl +:+ Str.nl +:+ "b")))
  = "a" +:+ Str.nl +:+ Str.nl +:+ "b".
Proof.
  apply (C2_completeness_amended 10 "t" ("a" +:+ Str.nl +:+ Str.nl +:+ "b")).
  reflexivity.
Defined.

(** A title with a trigger and a title without one. *)
Lemma C6_title_normalization_witness :
  normalize_title "Give me a SUMMARY of chapter 2" = "Summary:"
  /\ normalize_title "What is a vector store?" = "What is a vector store?".
Proof.
  split.
  - destruct (C6_title_normalization "Give me a SUMMARY of chapter 2") as [Htrig _].
    apply Htrig; [| reflexivity].
    exists "summary". split; [vm_compute; by left | reflexivity].
  - destruct (C6_title_normalization "What is a vector store?") as (_ & Hkeep & _).
    apply Hkeep. intros c Hc.
    repeat (apply elem_of_cons in Hc as [->|Hc]; [reflexivity |]).
    by apply elem_of_nil in Hc.
Defined.

(** A title with both "case study" and "summary", and one with "mcq" only. *)
Lemma C9_title_precedence_witness :
  normalize_title "Case study and summary" = "Summary:"
  /\ normalize_title "Five MCQ on chunking" = "Q&A:".
Proof.
  split.
  - apply (C9_title_precedence "Case study and summary"); [reflexivity | by left].
  - apply (C9_title_precedence "Five MCQ on chunking"); try reflexivity.
    exists "mcq". split; [| reflexivity].
    do 3 (apply elem_of_cons; right). apply elem_of_cons. by left.
Defined.

(** ** The persisted deck, the retrieval and the reset *)

Section PipelineFacts.

Context `{svc : Services}.

Lemma searches_snoc (log : list Event) (e : Event) :
  searches (log ++ [e])
  = searches log ++ match e with EvSearch q k => [(q, k)] | _ => [] end.
Proof. unfold searches. rewrite omap_app. by destruct e. Qed.

(** [update_presentation] rewrites the file with the old slides followed by
    the slides of the answer, and touches nothing else but the trace. *)
Lemma update_presentation_deck (title content : string) (w : World) :
  deck (update_presentation title content w).1
  = deck w ++ paginate MAX_CHARS_PER_SLIDE title content.
Proof.
  unfold update_presentation, deck, add_slide_with_content; simpl.
  rewrite add_slide_paginate. by destruct (w_pptx w).
Qed.

Lemma query_database_deck (query_text prompt_type : string) (w : World) :
  deck w `prefix_of` deck (query_database query_text prompt_type w).1.
Proof.
  unfold query_database, mbind, M_bind; simpl.
  destruct (PROMPT_TEMPLATES !! prompt_type) as [t|]; simpl.
  - unfold deck, add_slide_with_content; simpl. rewrite add_slide_paginate.
    destruct (w_pptx w); simpl; by eexists.
  - done.
Qed.

Lemma session_deck (queries : list (string * string)) (w : World) :
  deck w `prefix_of` deck (session queries w).
Proof.
  revert w. induction queries as [|[q pt] rest IH]; intros w; simpl.
  - done.
  - etrans; [apply (query_database_deck q pt) | apply IH].
Qed.

(** C8. Appending an answer keeps every slide already in the deck, at its
    place, and adds the new slides (at least one) at the end; over a
    session of queries the deck only grows by such appends. *)
Theorem C8_deck_is_append_only (title content : string) (w : World)
    (queries : list (string * string)) :
  let w' := (update_presentation title content w).1 in
  deck w' = deck w ++ paginate MAX_CHARS_PER_SLIDE title content
  /\ deck w `prefix_of` deck w'
  /\ length (deck w) < length (deck w')
  /\ deck w `prefix_of` deck (session queries w)
  /\ length (deck w) <= length (deck (session queries w)).
Proof.
  intros w'. subst w'. rewrite update_presentation_deck.
  pose proof (paginate_not_nil MAX_CHARS_PER_SLIDE title content) as Hne.
  split; [done |]. split; [by eexists |].
  split; [| split].
  - rewrite length_app.
    destruct (paginate MAX_CHARS_PER_SLIDE title content); [done | simpl; lia].
  - apply session_deck.
  - apply prefix_length, session_deck.
Qed.

(** C10. Whatever the query text and the prompt type (also one that is not
    a key of the templates, which raises after the search), one call of
    [query_database] makes exactly one similarity search, for the query
    text and with k = 5; the function takes no argument for k. *)
Theorem C10_retrieval_asks_for_five (query_text prompt_type : string) (w : World) :
  searches (w_log (query_database query_text prompt_type w).1)
  = searches (w_log w) ++ [(query_text, 5)].
Proof.
  unfold query_database, mbind, M_bind; simpl.
  destruct (PROMPT_TEMPLATES !! prompt_type) as [t|]; simpl.
  - by rewrite !searches_snoc, !app_nil_r.
  - by rewrite searches_snoc.
Qed.






End PipelineFacts.

(** ** More on the paginator *)

Section PaginatorMore.

Variable max_chars : nat.
Variable title : string.

Lemma spec_length (lines : list string) (cur : string) (first : bool) :
  length (spec_paginator max_chars title lines cur first) <= S (length lines).
Proof.
  revert cur first. induction lines as [|line rest IH]; intros cur first; simpl.
  - done.
  - repeat case_decide; simpl.
    + specialize (IH line false). lia.
    + specialize (IH line first). lia.
    + specialize (IH (cur +:+ Str.nl +:+ line) first). lia.
Qed.

(** An accumulator over the budget is flushed as it is. *)
Lemma spec_over_budget_head (lines : list string) (cur : string) (first : bool) :
  max_chars < Str.len cur ->
  exists rest, spec_paginator max_chars title lines cur first
               = spec_flush title cur first :: rest.
Proof.
  intros Hbig. destruct lines as [|line rest]; simpl.
  - by exists [].
  - rewrite decide_True by lia. eauto.
Qed.

Lemma spec_oversized_alone (lines : list string) (cur : string) (first : bool) (l : string) :
  l ∈ lines -> max_chars < Str.len l ->
  l ∈ bodies (spec_paginator max_chars title lines cur first).
Proof.
  revert cur first. induction lines as [|line rest IH]; intros cur first Hin Hbig.
  - by apply elem_of_nil in Hin.
  - apply elem_of_cons in Hin as [->|Hin]; simpl.
    + rewrite decide_True by lia. simpl. apply elem_of_cons. right.
      destruct (spec_over_budget_head rest line false Hbig) as [tl ->].
      simpl. apply elem_of_cons. by left.
    + repeat case_decide; simpl; try (apply elem_of_cons; right); by apply IH.
Qed.

Lemma spec_no_flush (lines : list string) (cur : string) (first : bool) :
  Str.len cur + weight lines <= S max_chars ->
  spec_paginator max_chars title lines cur first
  = [spec_flush title (glue cur lines) first].
Proof.
  revert cur. induction lines as [|line rest IH]; intros cur Hw; simpl in *.
  - done.
  - rewrite decide_False by lia.
    case_decide; apply IH.
    + lia.
    + rewrite !StrFacts.len_app, StrFacts.len_nl. lia.
Qed.

End PaginatorMore.

Lemma glue_nonempty (cur : string) (lines : list string) :
  cur ≠ "" -> glue cur lines = Str.join_lines (cur :: lines).
Proof.
  revert cur. induction lines as [|line rest IH]; intros cur Hcur; simpl.
  - done.
  - rewrite decide_False by done.
    rewrite IH by (by destruct cur).
    rewrite (StrFacts.join_lines_cons cur) by done.
    destruct rest as [|l' rest']; [done |].
    rewrite !StrFacts.join_lines_cons by done.
    by rewrite !StrFacts.app_assoc.
Qed.

Lemma lstrip_nl_line (l tail : string) :
  l ≠ "" -> Str.no_nl l = true -> lstrip_nl (l +:+ tail) = l +:+ tail.
Proof.
  destruct l as [|c l]; [done |]. intros _ Hno. simpl in Hno.
  apply andb_true_iff in Hno as [Hc _]. apply negb_true_iff in Hc.
  rewrite StrFacts.app_cons. simpl. by rewrite Hc.
Qed.

Lemma glue_lstrip (lines : list string) :
  Forall (fun l => Str.no_nl l = true) lines ->
  glue "" lines = lstrip_nl (Str.join_lines lines).
Proof.
  induction lines as [|line rest IH]; intros Hall; simpl.
  - done.
  - inversion Hall as [|? ? Hline Hrest]; subst.
    destruct (decide (line = "")) as [->|Hne].
    + rewrite IH by done. by destruct rest.
    + rewrite glue_nonempty by done.
      destruct rest as [|l' rest'].
      * change (Str.join_lines [line]) with line.
        rewrite <- (StrFacts.app_empty_r line) at 2.
        rewrite lstrip_nl_line by done. by rewrite StrFacts.app_empty_r.
      * rewrite StrFacts.join_lines_cons by done.
        by rewrite lstrip_nl_line.
Qed.

Lemma weight_join (lines : list string) :
  lines ≠ [] -> weight lines = S (Str.len (Str.join_lines lines)).
Proof.
  induction lines as [|line rest IH]; intros Hne; [done |].
  destruct rest as [|l' rest'].
  - simpl. change (Str.join_lines [line]) with line. lia.
  - rewrite StrFacts.join_lines_cons by done.
    rewrite !StrFacts.len_app, StrFacts.len_nl.
    change (weight (line :: l' :: rest')) with (S (Str.len line) + weight (l' :: rest')).
    rewrite IH by done. lia.
Qed.

(** X1. Whatever the content, a slide body has at most one character more
    than the budget (the separator that the test of the loop does not
    count), unless it is a single line of the input that is itself over the
    budget. *)
Theorem X1_body_bound (max_chars : nat) (title content : string) :
  Forall (fun b => Str.len b <= max_chars + 1
                   \/ (b ∈ Str.split_lines content /\ max_chars + 1 < Str.len b))
         (bodies (paginate max_chars title content)).
Proof.
  rewrite paginate_spec.
  eapply Forall_impl.
  - apply (spec_body_bound max_chars _ (Str.split_lines content)); [done |].
    left. simpl. lia.
  - intros b [Hle|Hin]; simpl; [by left |].
    destruct (decide (Str.len b <= max_chars + 1)); [by left | right].
    split; [done | lia].
Qed.

(** X2. One call adds at most one slide more than the content has lines. *)
Theorem X2_slide_count (max_chars : nat) (prs : Presentation) (title content : string) :
  length (add_slide_with_content_at max_chars prs title content)
  <= length prs + length (Str.split_lines content) + 1.
Proof.
  rewrite add_slide_spec, length_app.
  pose proof (spec_length max_chars (normalize_title title)
                (Str.split_lines content) "" true).
  lia.
Qed.

(** X3. A content within the budget goes on one slide, which carries the
    title; its body is the content without its leading newlines. *)
Theorem X3_short_content_one_slide (max_chars : nat) (title content : string) :
  Str.len content <= max_chars ->
  paginate max_chars title content
  = [mkSlide (Some (normalize_title title)) (lstrip_nl content)].
Proof.
  intros Hlen. rewrite paginate_spec, spec_no_flush.
  - rewrite glue_lstrip by apply StrFacts.split_lines_no_nl.
    by rewrite StrFacts.join_split.
  - rewrite weight_join by apply StrFacts.split_lines_not_nil.
    rewrite StrFacts.join_split. simpl. lia.
Qed.

(** X4. A line of the content that is over the budget is a slide body by
    itself: it is never joined to another line. *)
Theorem X4_oversized_line_alone (max_chars : nat) (title content l : string) :
  l ∈ Str.split_lines content ->
  max_chars < Str.len l ->
  l ∈ bodies (paginate max_chars title content).
Proof. intros Hin Hbig. rewrite paginate_spec. by apply spec_oversized_alone. Qed.

(** The page breaks do not depend on the title nor on the flag. *)
Lemma spec_bodies_title (max_chars : nat) (t1 t2 : string) (lines : list string)
    (cur : string) (f1 f2 : bool) :
  bodies (spec_paginator max_chars t1 lines cur f1)
  = bodies (spec_paginator max_chars t2 lines cur f2).
Proof.
  revert cur f1 f2. induction lines as [|line rest IH]; intros cur f1 f2; simpl.
  - done.
  - repeat case_decide; simpl; [f_equal |..]; apply IH.
Qed.

Lemma first_line_app_nl (a b : string) :
  first_line (a +:+ Str.nl +:+ b) = first_line a.
Proof.
  unfold first_line. rewrite StrFacts.split_lines_app_nl.
  pose proof (StrFacts.split_lines_not_nil a).
  by destruct (Str.split_lines a).
Qed.

(** The first body that comes out starts with the first line of the
    accumulator, or the accumulator was empty. *)
Lemma spec_first_body (max_chars : nat) (title : string) (lines : list string)
    (cur : string) (first : bool) :
  exists b tl,
    bodies (spec_paginator max_chars title lines cur first) = b :: tl
    /\ Str.len (first_line cur) <= Str.len (first_line b).
Proof.
  revert cur first. induction lines as [|line rest IH]; intros cur first; simpl.
  - by exists cur, [].
  - repeat case_decide; simpl.
    + eauto.
    + subst cur. destruct (IH line first) as (b & tl & -> & _).
      exists b, tl. split; [done |]. simpl. lia.
    + destruct (IH (cur +:+ Str.nl +:+ line) first) as (b & tl & -> & Hb).
      exists b, tl. split; [done |]. by rewrite first_line_app_nl in Hb.
Qed.

Lemma spec_breaks_forced (max_chars : nat) (title : string) (lines : list string)
    (cur : string) (first : bool) :
  Forall (fun l => Str.no_nl l = true) lines ->
  breaks_forced max_chars (bodies (spec_paginator max_chars title lines cur first)).
Proof.
  revert cur first. induction lines as [|line rest IH]; intros cur first Hall; simpl.
  - done.
  - inversion Hall as [|? ? Hline Hrest]; subst.
    repeat case_decide; simpl; try by apply IH.
    pose proof (IH line false Hrest) as Htl.
    destruct (spec_first_body max_chars title rest line false) as (b & tl & Hb & Hlen).
    rewrite Hb in Htl |- *. split; [| done].
    unfold first_line in Hlen at 1.
    rewrite StrFacts.split_lines_line in Hlen by done. simpl in Hlen. lia.
Qed.

(** X5. Where the slides break depends on the content and the budget only:
    two titles give the same bodies (the title is not counted against the
    budget). *)
Theorem X5_breaks_ignore_title (max_chars : nat) (title1 title2 content : string) :
  bodies (paginate max_chars title1 content)
  = bodies (paginate max_chars title2 content).
Proof. rewrite !paginate_spec. apply spec_bodies_title. Qed.

(** X6. The packing is greedy: between two consecutive slides, the body of
    the first and the first line of the second together fail the test of the
    loop, so no break is made that the test did not force. *)
Theorem X6_breaks_are_forced (max_chars : nat) (title content : string) :
  breaks_forced max_chars (bodies (paginate max_chars title content)).
Proof.
  rewrite paginate_spec. apply spec_breaks_forced, StrFacts.split_lines_no_nl.
Qed.

(** X7. Normalising a title twice is normalising it once: the three labels
    are kept as they are. *)
Theorem X7_normalize_title_idempotent (title : string) :
  normalize_title (normalize_title title) = normalize_title title.
Proof.
  assert (normalize_title title = "Summary:" \/ normalize_title title = "Case study:"
          \/ normalize_title title = "Q&A:" \/ normalize_title title = title)
    as [H|[H|[H|H]]].
  { unfold normalize_title.
    destruct (existsb _ special_cases); [| by do 3 right].
    destruct (Str.contains "summary" _); [by left |].
    destruct (_ || _); [right; by left | do 2 right; by left]. }
  all: by rewrite !H.
Qed.

(** ** More on the retrieval *)

Lemma template_keys (prompt_type : string) :
  is_Some (PROMPT_TEMPLATES !! prompt_type)
  <-> prompt_type ∈ ["rag"; "sum"; "qa"; "case"].
Proof.
  split.
  - intros [t Ht]. unfold PROMPT_TEMPLATES in Ht. simpl in Ht.
    rewrite !lookup_insert, lookup_empty in Ht.
    rewrite !elem_of_cons.
    repeat (case_decide; [subst; tauto |]). done.
  - intros Hin.
    repeat (apply elem_of_cons in Hin as [->|Hin]; [by eexists |]).
    by apply elem_of_nil in Hin.
Qed.

Section QueryMore.

Context `{svc : Services}.

(** X8. A prompt type that is not a key of the templates makes
    [query_database] raise KeyError with that key, after its search and
    before the model is called: the trace gains the search only, and the deck
    file is left as it was (it is not created either). *)
Theorem X8_unknown_prompt_type_raises (query_text prompt_type : string) (w : World) :
  prompt_type ∉ ["rag"; "sum"; "qa"; "case"] ->
  (query_database query_text prompt_type w).2 = inl (KeyError prompt_type)
  /\ w_pptx (query_database query_text prompt_type w).1 = w_pptx w
  /\ w_log (query_database query_text prompt_type w).1
     = w_log w ++ [EvSearch query_text 5].
Proof.
  intros Hkey.
  assert (PROMPT_TEMPLATES !! prompt_type = None) as Hnone.
  { apply eq_None_not_Some. by rewrite template_keys. }
  unfold query_database, mbind, M_bind; simpl.
  by rewrite Hnone.
Qed.

(** X9. With one of the four prompt types, [query_database] returns what the
    model answers to the one prompt it is given, and puts the answer at the
    end of the deck: the first new slide carries the normalised query text as
    its title, the others none, and the lines of the answer that are not
    empty are on the new slides, all of them and in their order. *)
Theorem X9_answer_goes_on_the_deck (query_text prompt_type : string) (w : World) :
  prompt_type ∈ ["rag"; "sum"; "qa"; "case"] ->
  exists prompt s rest,
    (query_database query_text prompt_type w).2 = inr (invoke prompt)
    /\ w_log (query_database query_text prompt_type w).1
       = w_log w ++ [EvSearch query_text 5; EvInvoke prompt; EvSave]
    /\ deck (query_database query_text prompt_type w).1 = deck w ++ s :: rest
    /\ slide_title s = Some (normalize_title query_text)
    /\ Forall (fun s' => slide_title s' = None) rest
    /\ nonblank (body_lines (s :: rest)) = nonblank (Str.split_lines (invoke prompt)).
Proof.
  intros [t Ht]%template_keys.
  unfold query_database, mbind, M_bind; simpl. rewrite Ht; simpl.
  set (prompt := format_prompt t _ query_text).
  destruct (first_slide_titled MAX_CHARS_PER_SLIDE query_text (invoke prompt))
    as (body & rest & Hpag & Hrest).
  exists prompt, (mkSlide (Some (normalize_title query_text)) body), rest.
  split; [done |]. split; [by rewrite <- !app_assoc |].
  split.
  { unfold deck, add_slide_with_content; simpl.
    rewrite add_slide_paginate, Hpag. by destruct (w_pptx w). }
  split; [done |]. split; [done |].
  rewrite <- Hpag. apply nonblank_lines_preserved.
Qed.

(** A query reads the index and the documents and never changes them,
    whether it answers or raises. *)
Lemma query_database_frame (query_text prompt_type : string) (w : World) :
  w_index (query_database query_text prompt_type w).1 = w_index w
  /\ w_data (query_database query_text prompt_type w).1 = w_data w.
Proof.
  unfold query_database, mbind, M_bind; simpl.
  by destruct (PROMPT_TEMPLATES !! prompt_type).
Qed.

End QueryMore.

(** ** The page *)

Lemma function_map_keys (function : string) :
  function ∈ function_options ->
  exists key, function_map !! function = Some key
              /\ key ∈ ["rag"; "sum"; "qa"; "case"].
Proof.
  intros Hin.
  repeat (apply elem_of_cons in Hin as [->|Hin];
          [eexists; split; [reflexivity |]; rewrite !elem_of_cons; tauto |]).
  by apply elem_of_nil in Hin.
Qed.

Section PageFacts.

Context `{svc : Services} `{ldr : LoaderService}.

Lemma update_vector_database_returns (w : World) :
  update_vector_database w = ((update_vector_database w).1, inr tt).
Proof. reflexivity. Qed.

Lemma reset_vector_database_returns (w : World) :
  reset_vector_database w = ((reset_vector_database w).1, inr tt).
Proof. reflexivity. Qed.

(** The buttons of the sidebar work on the index: the deck file and the
    searches of the trace are as before. *)
Lemma after_buttons_frame (ui : Inputs) (w : World) :
  w_pptx (after_buttons ui w) = w_pptx w
  /\ w_data (after_buttons ui w) = w_data w
  /\ searches (w_log (after_buttons ui w)) = searches (w_log w)
  /\ (in_update ui = false -> in_reset ui = false -> after_buttons ui w = w).
Proof.
  unfold after_buttons.
  destruct (in_update ui), (in_reset ui); simpl;
    repeat split; try done; try (intros; discriminate);
    unfold searches; rewrite ?omap_app; simpl; by rewrite ?app_nil_r.
Qed.

#[local] Existing Instance P_ret.
#[local] Existing Instance P_bind.

Lemma bind_ok {A B} (m : P A) (k : A -> P B) (a a' : App) (x : A) :
  m a = (a', inr x) -> P_bind A B k m a = k x a'.
Proof. unfold P_bind. by intros ->. Qed.

Lemma bind_stop {A B} (m : P A) (k : A -> P B) (a a' : App) (e : Stop) :
  m a = (a', inl e) -> P_bind A B k m a = (a', inl e).
Proof. unfold P_bind. by intros ->. Qed.

Lemma update_button (ui : Inputs) (a : App) :
  (if in_update ui then lift_world update_vector_database else mret tt) a
  = (if in_update ui then set_world (update_vector_database (app_world a)).1 a else a,
     inr tt).
Proof. by destruct (in_update ui). Qed.

Lemma reset_button (ui : Inputs) (a : App) :
  (if in_reset ui then lift_world reset_vector_database else mret tt) a
  = (if in_reset ui then set_world (reset_vector_database (app_world a)).1 a else a,
     inr tt).
Proof. by destruct (in_reset ui). Qed.

Lemma display_cases (clicked : option string) (a : App) :
  app_files a !! "messages" = None ->
  display_uploaded_files clicked a
  = match clicked with
    | Some file =>
        if decide (file ∈ dom (app_files a))
        then (set_files (delete file (app_files a)) a, inl StopRerun)
        else (a, inr (dom (app_files a)))
    | None => (a, inr (dom (app_files a)))
    end.
Proof.
  intros Hkey%not_elem_of_dom.
  unfold display_uploaded_files, mbind, P_bind; simpl.
  rewrite decide_False by done.
  destruct clicked as [file|]; [| done]. by case_decide.
Qed.

(** Under safe names the loop of the uploader runs to its end. *)
Lemma save_uploaded_files_safe (uploaded : list UploadedFile) (a : App) :
  Forall (fun f => safe_name (up_name f) = true) uploaded ->
  save_uploaded_files uploaded a = (after_uploads uploaded a, inr tt).
Proof.
  revert a. induction uploaded as [|f rest IH]; intros a Hsafe; simpl.
  - done.
  - inversion Hsafe as [|? ? Hf Hrest]; subst.
    unfold mbind. erewrite bind_ok.
    + by apply IH.
    + unfold write_uploaded. by rewrite Hf.
Qed.

Lemma after_uploads_frame (uploaded : list UploadedFile) (a : App) :
  app_files (after_uploads uploaded a) = foldl write_file (app_files a) uploaded
  /\ app_messages (after_uploads uploaded a) = app_messages a
  /\ w_index (app_world (after_uploads uploaded a)) = w_index (app_world a)
  /\ w_pptx (app_world (after_uploads uploaded a)) = w_pptx (app_world a)
  /\ w_log (app_world (after_uploads uploaded a)) = w_log (app_world a).
Proof.
  unfold after_uploads. revert a.
  induction uploaded as [|f rest IH]; intros a; simpl; [done |].
  destruct (IH (store_upload a f)) as (-> & -> & -> & -> & ->). done.
Qed.

Lemma safe_name_not_messages (name : string) :
  safe_name name = true -> name ≠ "messages".
Proof.
  intros Hsafe ->. by vm_compute in Hsafe.
Qed.

Lemma write_files_other (uploaded : list UploadedFile)
    (files : gmap string (list Byte.byte)) (name : string) :
  name ∉ map up_name uploaded ->
  foldl write_file files uploaded !! name = files !! name.
Proof.
  revert files. induction uploaded as [|f rest IH]; intros files Hnot; simpl.
  - done.
  - simpl in Hnot. apply not_elem_of_cons in Hnot as [Hne Hrest].
    rewrite IH by done. unfold write_file. by rewrite lookup_insert_ne.
Qed.

(** Safe uploads leave the key of the session state free. *)
Lemma modelled_at_listing (ui : Inputs) (a : App) :
  modelled_run ui a -> uploaded_into ui a !! "messages" = None.
Proof.
  intros [Hsafe Hkey]. unfold uploaded_into.
  rewrite write_files_other; [done |].
  intros (f & Hname & Hf)%list_elem_of_fmap.
  rewrite Forall_forall in Hsafe.
  by apply (safe_name_not_messages _ (Hsafe f Hf)).
Qed.

(** The state at the listing of the files. *)
Lemma at_listing (ui : Inputs) (a : App) :
  let a1 := after_uploads (in_uploaded ui) a in
  let a2 := if in_update ui
            then set_world (update_vector_database (app_world a1)).1 a1 else a1 in
  (if in_reset ui
   then set_world (reset_vector_database (app_world a2)).1 a2 else a2)
  = mkApp (world_at_listing ui a) (uploaded_into ui a) (app_messages a).
Proof.
  intros a1 a2. subst a1 a2.
  destruct (after_uploads_frame (in_uploaded ui) a) as (Hf & Hm & _).
  unfold world_at_listing, after_buttons, uploaded_into. rewrite <- Hf, <- Hm.
  by destruct (in_update ui), (in_reset ui), (after_uploads (in_uploaded ui) a).
Qed.

Lemma setup_sidebar_cases (ui : Inputs) (a : App) :
  modelled_run ui a ->
  let files := uploaded_into ui a in
  let w := world_at_listing ui a in
  setup_sidebar ui a
  = match in_delete ui with
    | Some file =>
        if decide (file ∈ dom files) then
          (mkApp (mkWorld (read_directory (delete file files))
                          (w_index w) (w_pptx w) (w_log w))
                 (delete file files) (app_messages a),
           inl StopRerun)
        else (mkApp w files (app_messages a), inr (dom files, w_pptx w))
    | None => (mkApp w files (app_messages a), inr (dom files, w_pptx w))
    end.
Proof.
  intros Hrun files w. subst files w.
  pose proof (modelled_at_listing ui a Hrun) as Hkey.
  destruct Hrun as [Hsafe _].
  unfold setup_sidebar, mbind.
  erewrite bind_ok by (by apply save_uploaded_files_safe).
  erewrite bind_ok by apply update_button.
  erewrite bind_ok by apply reset_button.
  rewrite at_listing.
  set (a3 := mkApp _ _ _).
  pose proof (display_cases (in_delete ui) a3 Hkey) as Hd.
  destruct (in_delete ui) as [file|].
  - simpl in Hd. case_decide.
    + by rewrite (bind_stop _ _ _ _ _ Hd).
    + by rewrite (bind_ok _ _ _ _ _ Hd).
  - by rewrite (bind_ok _ _ _ _ _ Hd).
Qed.

Lemma answer_query_idle (function : string) (query_text : option string) (a : App) :
  query_text = None \/ query_text = Some "" ->
  answer_query function query_text a = (a, inr tt).
Proof. by intros [->| ->]. Qed.

Lemma answer_query_cases (function query_text : string) (a : App) :
  query_text ≠ "" ->
  answer_query function (Some query_text) a
  = match function_map !! function with
    | None => (a, inl (StopRaise (KeyError function)))
    | Some key =>
        match query_database query_text key (app_world a) with
        | (w', inl e) => (set_world w' a, inl (StopRaise e))
        | (w', inr response_text) =>
            (mkApp w' (app_files a)
                   (Some (messages a ++ exchange (query_text, response_text))),
             inr tt)
        end
    end.
Proof.
  intros Hq%StrFacts.truthy_spec. unfold answer_query. rewrite Hq.
  unfold mbind, P_bind.
  destruct (function_map !! function) as [key|]; [| done].
  simpl. unfold lift_world.
  by destruct (query_database query_text key (app_world a)) as [w' [e|r]].
Qed.

Lemma main_cases (ui : Inputs) (a : App) :
  main ui a
  = match setup_sidebar ui a with
    | (a1, inl e) => (a1, inl e)
    | (a1, inr sidebar) =>
        match answer_query (in_function ui) (in_query ui) (init_messages a1) with
        | (a2, inl e) => (a2, inl e)
        | (a2, inr _) => (a2, inr (mkView sidebar.1 sidebar.2 (messages a2)))
        end
    end.
Proof.
  unfold main, mbind, P_bind.
  destruct (setup_sidebar ui a) as [a1 [e|sidebar]]; [done |].
  simpl.
  destruct (answer_query _ _ _) as [a2 [e|[]]]; reflexivity.
Qed.

Lemma messages_init (a : App) : messages (init_messages a) = messages a.
Proof.
  unfold init_messages, messages.
  destruct (app_messages a) eqn:E; simpl; by rewrite ?E.
Qed.

Lemma world_at_listing_frame (ui : Inputs) (a : App) :
  w_pptx (world_at_listing ui a) = w_pptx (app_world a)
  /\ searches (w_log (world_at_listing ui a)) = searches (w_log (app_world a))
  /\ (in_update ui = false -> in_reset ui = false ->
      w_index (world_at_listing ui a) = w_index (app_world a)).
Proof.
  unfold world_at_listing.
  destruct (after_buttons_frame ui (app_world (after_uploads (in_uploaded ui) a)))
    as (Hp & _ & Hs & Hsame).
  destruct (after_uploads_frame (in_uploaded ui) a) as (_ & _ & Hi & Hpp & Hl).
  split; [by rewrite Hp |]. split; [by rewrite Hs, Hl |].
  intros Hu Hr. by rewrite (Hsame Hu Hr).
Qed.

(** The sidebar leaves the messages, the deck file and the searches of the
    trace as they are, and stops only to restart the script. *)
Lemma setup_sidebar_frame (ui : Inputs) (a : App) :
  modelled_run ui a ->
  app_messages (setup_sidebar ui a).1 = app_messages a
  /\ w_pptx (app_world (setup_sidebar ui a).1) = w_pptx (app_world a)
  /\ searches (w_log (app_world (setup_sidebar ui a).1))
     = searches (w_log (app_world a))
  /\ (forall e, (setup_sidebar ui a).2 = inl e -> e = StopRerun)
  /\ (forall sidebar, (setup_sidebar ui a).2 = inr sidebar ->
                      sidebar.2 = w_pptx (app_world a)).
Proof.
  intros Hrun.
  destruct (world_at_listing_frame ui a) as (Hp & Hs & _).
  rewrite setup_sidebar_cases by done.
  destruct (in_delete ui) as [file|]; [case_decide |]; simpl;
    repeat split; try done; intros ? [=]; by subst.
Qed.

Lemma query_database_known (query_text key : string) (w : World) :
  key ∈ ["rag"; "sum"; "qa"; "case"] ->
  exists response_text,
    (query_database query_text key w).2 = inr response_text
    /\ deck (query_database query_text key w).1
       = deck w ++ paginate MAX_CHARS_PER_SLIDE query_text response_text.
Proof.
  intros [t Ht]%template_keys.
  unfold query_database, mbind, M_bind; simpl. rewrite Ht; simpl.
  eexists. split; [done |].
  unfold deck, add_slide_with_content; simpl.
  rewrite add_slide_paginate. by destruct (w_pptx w).
Qed.

Lemma query_database_searches (query_text key : string) (w : World) :
  w_pptx (query_database query_text key w).1 = w_pptx w
  \/ exists r, (query_database query_text key w).2 = inr r.
Proof.
  unfold query_database, mbind, M_bind; simpl.
  destruct (PROMPT_TEMPLATES !! key); simpl; [right; by eexists | by left].
Qed.

(** What one run does to the messages and to the deck: nothing, or one
    exchange and its slides. *)
Lemma main_effect (ui : Inputs) (a : App) :
  modelled_run ui a ->
  (messages (main ui a).1 = messages a
   /\ deck (app_world (main ui a).1) = deck (app_world a))
  \/ (exists q r,
        in_query ui = Some q /\ q ≠ ""
        /\ (exists view, (main ui a).2 = inr view
                         /\ view_messages view = messages (main ui a).1)
        /\ messages (main ui a).1 = messages a ++ exchange (q, r)
        /\ deck (app_world (main ui a).1)
           = deck (app_world a) ++ paginate MAX_CHARS_PER_SLIDE q r).
Proof.
  intros Hrun. rewrite main_cases.
  destruct (setup_sidebar_frame ui a Hrun) as (Hm & Hp & _ & _ & _).
  destruct (setup_sidebar ui a) as [a1 [e|sidebar]]; simpl in *.
  { left. unfold messages, deck. by rewrite Hm, Hp. }
  assert (messages (init_messages a1) = messages a) as Hm1.
  { rewrite messages_init. unfold messages. by rewrite Hm. }
  assert (deck (app_world (init_messages a1)) = deck (app_world a)) as Hd1.
  { unfold deck, init_messages. destruct (app_messages a1); simpl; by rewrite Hp. }
  destruct (in_query ui) as [q|] eqn:Hq.
  2:{ rewrite answer_query_idle by (by left). simpl. by left. }
  destruct (decide (q = "")) as [->|Hne].
  { rewrite answer_query_idle by (by right). simpl. by left. }
  rewrite answer_query_cases by done.
  destruct (function_map !! in_function ui) as [key|]; [| by left].
  destruct (query_database q key (app_world (init_messages a1)))
    as [w' [e|r]] eqn:Hqd; simpl.
  - left. split; [done |].
    destruct (query_database_searches q key (app_world (init_messages a1)))
      as [Hsame|[r Hr]]; rewrite Hqd in *; simpl in *; [| done].
    unfold deck in *. by rewrite Hsame.
  - right. exists q, r. split; [done |]. split; [done |].
    split; [by eexists |]. split; [by rewrite Hm1 |].
    unfold query_database, mbind, M_bind in Hqd; simpl in Hqd.
    destruct (PROMPT_TEMPLATES !! key); simpl in Hqd; [| done].
    injection Hqd as <- <-. rewrite <- Hd1.
    unfold deck, add_slide_with_content; simpl.
    rewrite add_slide_paginate. by destruct (w_pptx _).
Qed.

Lemma write_files_present (uploaded : list UploadedFile)
    (files : gmap string (list Byte.byte)) (name : string) :
  is_Some (files !! name) \/ name ∈ map up_name uploaded ->
  is_Some (foldl write_file files uploaded !! name).
Proof.
  revert files. induction uploaded as [|f rest IH]; intros files Hin; simpl.
  - destruct Hin as [H|H]; [done | by apply elem_of_nil in H].
  - apply IH. unfold write_file.
    destruct (decide (up_name f = name)) as [<-|Hne].
    + left. rewrite lookup_insert_eq. by eexists.
    + rewrite lookup_insert_ne by done.
      destruct Hin as [H|H]; [by left | right].
      simpl in H. apply elem_of_cons in H as [H|H]; [congruence | done].
Qed.

Lemma write_files_distinct (uploaded : list UploadedFile)
    (files : gmap string (list Byte.byte)) (f : UploadedFile) :
  NoDup (map up_name uploaded) -> f ∈ uploaded ->
  foldl write_file files uploaded !! up_name f = Some (up_buffer f).
Proof.
  revert files. induction uploaded as [|g rest IH]; intros files Hnd Hin; simpl.
  - by apply elem_of_nil in Hin.
  - simpl in Hnd. apply NoDup_cons in Hnd as [Hg Hnd].
    apply elem_of_cons in Hin as [->|Hin].
    + rewrite write_files_other by done. unfold write_file.
      by rewrite lookup_insert_eq.
    + by apply IH.
Qed.

(** X10. The loop over the uploaded files, when every name is safe (a plain
    file name that stays in the data directory), runs to its end and writes
    every file: afterwards each uploaded name is in the directory, a name
    that was not uploaded has the content it had, the file uploaded last has
    its content, and, when the names are distinct, so has every uploaded
    file.  The index and the deck are not touched. *)
Theorem X10_upload_writes_files (uploaded : list UploadedFile) (a : App) :
  Forall (fun f => safe_name (up_name f) = true) uploaded ->
  let a' := (save_uploaded_files uploaded a).1 in
  (save_uploaded_files uploaded a).2 = inr tt
  /\ (forall f, f ∈ uploaded -> is_Some (app_files a' !! up_name f))
  /\ (forall name, name ∉ map up_name uploaded ->
                   app_files a' !! name = app_files a !! name)
  /\ (forall before f, uploaded = before ++ [f] ->
                       app_files a' !! up_name f = Some (up_buffer f))
  /\ (NoDup (map up_name uploaded) ->
      forall f, f ∈ uploaded -> app_files a' !! up_name f = Some (up_buffer f))
  /\ w_index (app_world a') = w_index (app_world a)
  /\ w_pptx (app_world a') = w_pptx (app_world a).
Proof.
  intros Hsafe a'. subst a'. rewrite save_uploaded_files_safe by done. simpl.
  destruct (after_uploads_frame uploaded a) as (-> & _ & -> & -> & _).
  split; [done |].
  split; [| split; [| split; [| split; [| done]]]].
  - intros f Hf. apply write_files_present. right.
    by apply list_elem_of_fmap_2.
  - intros name Hname. by apply write_files_other.
  - intros before f ->. rewrite foldl_app. simpl. unfold write_file.
    by rewrite lookup_insert_eq.
  - intros Hnd f Hf. by apply write_files_distinct.
Qed.

(** X11. For each option of the select box, [function_map] gives a key of
    the templates: a run that the model follows (safe upload names, no file
    named "messages") never raises KeyError; it ends, or it restarts the
    script after a Delete click. *)
Theorem X11_main_never_raises (ui : Inputs) (a : App) (e : Exn) :
  modelled_run ui a ->
  in_function ui ∈ function_options ->
  (main ui a).2 ≠ inl (StopRaise e) /\ (main ui a).2 ≠ inl StopUnmodelled.
Proof.
  intros Hrun Hf.
  enough (forall s, (main ui a).2 = inl s -> s = StopRerun) as Hstops.
  { split; intros Heq; by specialize (Hstops _ Heq). }
  intros s. rewrite main_cases.
  destruct (setup_sidebar_frame ui a Hrun) as (_ & _ & _ & Hstop & _).
  destruct (setup_sidebar ui a) as [a1 [e1|sidebar]]; simpl in *.
  { intros [= <-]. by apply Hstop. }
  destruct (in_query ui) as [q|].
  2:{ by rewrite answer_query_idle by (by left). }
  destruct (decide (q = "")) as [->|Hne].
  { by rewrite answer_query_idle by (by right). }
  rewrite answer_query_cases by done.
  destruct (function_map_keys _ Hf) as (key & -> & Hkey).
  destruct (query_database_known q key (app_world (init_messages a1)) Hkey)
    as (r & Hr & _).
  destruct (query_database q key _) as [w' [e'|r']]; simpl in *; done.
Qed.

(** A run that ends with a query text that is not empty has answered it. *)
Lemma main_answered (ui : Inputs) (a : App) (q : string) (view : PageView) :
  modelled_run ui a ->
  in_query ui = Some q -> q ≠ "" ->
  (main ui a).2 = inr view ->
  exists r,
    messages (main ui a).1 = messages a ++ exchange (q, r)
    /\ view_messages view = messages (main ui a).1
    /\ view_download view = w_pptx (app_world a)
    /\ deck (app_world (main ui a).1)
       = deck (app_world a) ++ paginate MAX_CHARS_PER_SLIDE q r.
Proof.
  intros Hrun Hq Hne. rewrite main_cases.
  destruct (setup_sidebar_frame ui a Hrun) as (Hm & Hp & _ & _ & Hside).
  destruct (setup_sidebar ui a) as [a1 [e1|sidebar]]; simpl in *; [done |].
  rewrite Hq, answer_query_cases by done.
  destruct (function_map !! in_function ui) as [key|]; [| done].
  set (a2 := init_messages a1).
  assert (deck (app_world a2) = deck (app_world a)) as Hd2.
  { subst a2. unfold deck, init_messages.
    destruct (app_messages a1); simpl; by rewrite Hp. }
  assert (messages a2 = messages a) as Hm2.
  { subst a2. rewrite messages_init. unfold messages. by rewrite Hm. }
  destruct (query_database q key (app_world a2)) as [w' [e'|r]] eqn:Hqd;
    simpl; [done |].
  intros [= <-]. exists r. simpl.
  split; [by rewrite Hm2 |]. split; [done |]. split; [by apply Hside |].
  unfold query_database, mbind, M_bind in Hqd; simpl in Hqd.
  destruct (PROMPT_TEMPLATES !! key); simpl in Hqd; [| done].
  injection Hqd as <- <-. rewrite <- Hd2.
  unfold deck, add_slide_with_content; simpl.
  rewrite add_slide_paginate. by destruct (w_pptx _).
Qed.

(** With an option of the select box and no file to delete, a run ends. *)
Lemma main_finishes (ui : Inputs) (a : App) :
  modelled_run ui a ->
  in_function ui ∈ function_options ->
  in_delete ui = None ->
  exists view, (main ui a).2 = inr view.
Proof.
  intros Hrun Hf Hdel. rewrite main_cases, setup_sidebar_cases, Hdel by done.
  set (a1 := init_messages _).
  destruct (in_query ui) as [q|].
  2:{ rewrite answer_query_idle by (by left). by eexists. }
  destruct (decide (q = "")) as [->|Hne].
  { rewrite answer_query_idle by (by right). by eexists. }
  rewrite answer_query_cases by done.
  destruct (function_map_keys _ Hf) as (key & -> & Hkey).
  destruct (query_database_known q key (app_world a1) Hkey) as (r & Hr & _).
  destruct (query_database q key (app_world a1)) as [w' [e'|r']];
    simpl in *; [done | by eexists].
Qed.

(** X12. A run that the model follows (safe upload names, no file named
    "messages"), with a query text that is not empty and no file to delete,
    answers the query: it ends, the two messages (the query of the user, the
    answer of the bot) are appended to the messages and written, and the
    slides of the pair go to the end of the deck. *)
Theorem X12_query_is_answered (ui : Inputs) (a : App) (q : string) :
  modelled_run ui a ->
  in_function ui ∈ function_options ->
  in_query ui = Some q -> q ≠ "" ->
  in_delete ui = None ->
  exists r view,
    (main ui a).2 = inr view
    /\ messages (main ui a).1 = messages a ++ exchange (q, r)
    /\ view_messages view = messages (main ui a).1
    /\ deck (app_world (main ui a).1)
       = deck (app_world a) ++ paginate MAX_CHARS_PER_SLIDE q r.
Proof.
  intros Hrun Hf Hq Hne Hdel.
  destruct (main_finishes ui a Hrun Hf Hdel) as [view Hview].
  destruct (main_answered ui a q view Hrun Hq Hne Hview) as (r & Hm & Hvm & _ & Hd).
  by exists r, view.
Qed.

(** X13. In a run that the model follows (safe upload names, no file named
    "messages"), the deck that the finished run offers for download is the
    file as it was when the run began: when the run answers a query, the file has more
    slides at its end than were offered, and the first answer of all is
    written to a file while the page still invites to start chatting. *)
Theorem X13_download_is_one_answer_behind (ui : Inputs) (a : App) (q : string)
    (view : PageView) :
  modelled_run ui a ->
  in_query ui = Some q -> q ≠ "" ->
  (main ui a).2 = inr view ->
  view_download view = w_pptx (app_world a)
  /\ length (default [] (view_download view))
     < length (deck (app_world (main ui a).1))
  /\ w_pptx (app_world (main ui a).1) ≠ None.
Proof.
  intros Hrun Hq Hne Hview.
  destruct (main_answered ui a q view Hrun Hq Hne Hview) as (r & _ & _ & Hdl & Hd).
  assert (length (deck (app_world a)) < length (deck (app_world (main ui a).1)))
    as Hlen.
  { rewrite Hd, length_app.
    pose proof (paginate_not_nil MAX_CHARS_PER_SLIDE q r) as Hnil.
    destruct (paginate MAX_CHARS_PER_SLIDE q r); simpl; [done | lia]. }
  split; [done |]. split.
  - rewrite Hdl. exact Hlen.
  - intros Hnone. unfold deck at 2 in Hlen. rewrite Hnone in Hlen.
    simpl in Hlen. lia.
Qed.

(** X14. Without a query text (none, or the empty string) a run that the
    model follows (safe upload names, no file named "messages") makes no
    search and leaves the messages and the deck as they are, whichever
    buttons of the sidebar are clicked. *)
Theorem X14_no_query_no_answer (ui : Inputs) (a : App) :
  modelled_run ui a ->
  in_query ui = None \/ in_query ui = Some "" ->
  messages (main ui a).1 = messages a
  /\ deck (app_world (main ui a).1) = deck (app_world a)
  /\ searches (w_log (app_world (main ui a).1)) = searches (w_log (app_world a)).
Proof.
  intros Hrun Hq. rewrite main_cases.
  destruct (setup_sidebar_frame ui a Hrun) as (Hm & Hp & Hs & _ & _).
  destruct (setup_sidebar ui a) as [a1 [e1|sidebar]]; simpl in *.
  { unfold messages, deck. by rewrite Hm, Hp. }
  rewrite answer_query_idle by done. simpl.
  rewrite messages_init. unfold messages, deck, init_messages.
  destruct (app_messages a1) eqn:Ha1; simpl; rewrite <- ?Hm, ?Hp, ?Hs, ?Ha1; done.
Qed.

(** X15. In a run that the model follows (safe upload names, no file named
    "messages"), a click on the Delete button of a file of the directory
    removes that file and restarts the script before the chat is reached: the query
    text of the run is not answered, the messages and the deck are as before;
    and unless a button of the sidebar was clicked too, the index still holds
    what it held, the chunks of the deleted file included. *)
Theorem X15_delete_restarts_the_run (ui : Inputs) (a : App) (file : string) :
  modelled_run ui a ->
  in_delete ui = Some file ->
  file ∈ dom (uploaded_into ui a) ->
  (main ui a).2 = inl StopRerun
  /\ app_files (main ui a).1 = delete file (uploaded_into ui a)
  /\ messages (main ui a).1 = messages a
  /\ deck (app_world (main ui a).1) = deck (app_world a)
  /\ searches (w_log (app_world (main ui a).1)) = searches (w_log (app_world a))
  /\ (in_update ui = false -> in_reset ui = false ->
      w_index (app_world (main ui a).1) = w_index (app_world a)).
Proof.
  intros Hrun Hdel Hin.
  destruct (world_at_listing_frame ui a) as (Hp & Hs & Hidx).
  rewrite main_cases, setup_sidebar_cases, Hdel by done.
  rewrite decide_True by done. simpl.
  unfold deck. simpl. by rewrite Hp.
Qed.

Lemma answer_query_files (function : string) (query_text : option string) (a : App) :
  app_files (answer_query function query_text a).1 = app_files a.
Proof.
  destruct query_text as [q|]; [| done].
  destruct (decide (q = "")) as [->|Hne]; [done |].
  rewrite answer_query_cases by done.
  destruct (function_map !! function) as [key|]; [| done].
  by destruct (query_database q key (app_world a)) as [w' [e|r]].
Qed.

(** A run that the model follows leaves the key of the session state free:
    the next run is followed too when its uploads are safe. *)
Lemma main_keeps_key (ui : Inputs) (a : App) :
  modelled_run ui a -> app_files (main ui a).1 !! "messages" = None.
Proof.
  intros Hrun. pose proof (modelled_at_listing ui a Hrun) as Hkey.
  rewrite main_cases, setup_sidebar_cases by done.
  assert (forall a1 sidebar,
            app_files a1 !! "messages" = None ->
            app_files (match answer_query (in_function ui) (in_query ui)
                               (init_messages a1) with
                       | (a2, inl e) => (a2, inl e)
                       | (a2, inr _) =>
                           (a2, inr (mkView sidebar.1 sidebar.2 (messages a2)))
                       end).1 !! "messages" = None) as Hchat.
  { intros a1 sidebar Ha1.
    pose proof (answer_query_files (in_function ui) (in_query ui) (init_messages a1))
      as Hfiles.
    destruct (answer_query _ _ _) as [a2 [e|[]]]; simpl in *; rewrite Hfiles;
      unfold init_messages; by destruct (app_messages a1). }
  destruct (in_delete ui) as [file|]; [case_decide |].
  - simpl. by apply lookup_delete_None; right.
  - by apply (Hchat (mkApp _ _ _) (_, _)).
  - by apply (Hchat (mkApp _ _ _) (_, _)).
Qed.

(** X16. Over the runs of a session that the model follows (safe upload
    names in every run, no file named "messages" at the start), whatever
    else the widgets return, the messages grow by exchanges only (a query of
    the user, then the answer of the bot), at most one for each run, and
    every exchange has added at least one slide to the deck, whose earlier
    slides stay in front. *)
Theorem X16_session_exchanges (uis : list Inputs) (a : App) :
  Forall (fun ui => Forall (fun f => safe_name (up_name f) = true) (in_uploaded ui))
         uis ->
  app_files a !! "messages" = None ->
  exists qas : list (string * string),
    messages (runs uis a) = messages a ++ concat (map exchange qas)
    /\ length qas <= length uis
    /\ length (deck (app_world a)) + length qas
       <= length (deck (app_world (runs uis a)))
    /\ deck (app_world a) `prefix_of` deck (app_world (runs uis a)).
Proof.
  revert a. induction uis as [|ui rest IH]; intros a Hsafe Hkey; simpl.
  - exists []. simpl. rewrite app_nil_r.
    split; [done |]. split; [lia |]. split; [lia | done].
  - inversion Hsafe as [|? ? Hui Hrest]; subst.
    assert (modelled_run ui a) as Hrun by done.
    destruct (IH (main ui a).1 Hrest (main_keeps_key ui a Hrun))
      as (qas & Hm & Hn & Hlen & Hpre).
    fold (runs rest (main ui a).1) in *.
    destruct (main_effect ui a Hrun)
      as [[Hm1 Hd1]|(q & r & _ & _ & _ & Hm1 & Hd1)].
    + exists qas. rewrite Hm, Hm1. rewrite Hd1 in Hlen, Hpre.
      split; [done |]. split; [lia |]. split; [lia | done].
    + exists ((q, r) :: qas). rewrite Hm, Hm1.
      rewrite Hd1 in Hlen, Hpre. rewrite length_app in Hlen.
      pose proof (paginate_not_nil MAX_CHARS_PER_SLIDE q r) as Hnil.
      split; [by rewrite <- app_assoc |].
      split; [simpl; lia |].
      split.
      * destruct (paginate MAX_CHARS_PER_SLIDE q r); simpl in *; [done | lia].
      * etrans; [| exact Hpre]. by apply prefix_app_r.
Qed.

End PageFacts.

(** ** The pipeline on the small instance *)

#[local] Existing Instance small_services.



(** After the reset the chunk of the corpus carries its new embedding. *)
Example reset_small_world :
  w_index (reset_vector_database small_world).1
  = {["a.pdf:0:0" := mkEntry (V := nat) 5 "alpha" "a.pdf" 0 0]}.
Proof. by vm_compute. Qed.

(** With ids matched one by one, an id whose document is gone is not in the
    namespace of the chunks and stays in the index through a reset. *)
Example reset_keeps_unmatched_id :
  dom (w_index (reset_vector_database stale_world).1)
  = {["a.pdf:0:0"; "gone.pdf:0:0"]}.
Proof. by vm_compute. Qed.

(** A query with a prompt type that is no key of the templates raises after
    its search. *)
Example query_unknown_prompt_type :
  (query_database "q" "chat" small_world).2 = inl (KeyError "chat")
  /\ searches (w_log (query_database "q" "chat" small_world).1) = [("q", 5)]
  /\ w_pptx (query_database "q" "chat" small_world).1 = None.
Proof. by vm_compute. Qed.

Example query_adds_a_titled_slide :
  deck (query_database "Summary please" "sum" small_world).1
  = [mkSlide (Some "Summary:") "oldSummary please"].
Proof. by vm_compute. Qed.

(** ** The extras on concrete inputs *)

#[local] Existing Instance small_loader.

(** A content of five characters under a budget of ten. *)
Lemma X3_short_content_one_slide_witness :
  paginate 10 "Notes" (Str.nl +:+ "hello")
  = [mkSlide (Some "Notes") "hello"].
Proof.
  apply (X3_short_content_one_slide 10 "Notes" (Str.nl +:+ "hello")).
  vm_compute. lia.
Defined.

(** A line of four characters under a budget of three. *)
Lemma X4_oversized_line_alone_witness :
  "abcd" ∈ bodies (paginate 3 "t" ("ab" +:+ Str.nl +:+ "abcd" +:+ Str.nl +:+ "c")).
Proof.
  apply (X4_oversized_line_alone 3 "t" ("ab" +:+ Str.nl +:+ "abcd" +:+ Str.nl +:+ "c")).
  - vm_compute. apply elem_of_cons. right. apply elem_of_cons. by left.
  - vm_compute. lia.
Defined.

(** The label of the select box is not a key of the templates. *)
Lemma X8_unknown_prompt_type_raises_witness :
  (query_database "q" "Chat" small_world).2 = inl (KeyError "Chat").
Proof.
  apply (X8_unknown_prompt_type_raises "q" "Chat" small_world).
  rewrite !elem_of_cons, elem_of_nil. intros [H|[H|[H|[H|H]]]]; done.
Defined.

Lemma X9_answer_goes_on_the_deck_witness :
  exists prompt s rest,
    (query_database "Summary of alpha" "sum" small_world).2 = inr (invoke prompt)
    /\ w_log (query_database "Summary of alpha" "sum" small_world).1
       = w_log small_world ++ [EvSearch "Summary of alpha" 5; EvInvoke prompt; EvSave]
    /\ deck (query_database "Summary of alpha" "sum" small_world).1
       = deck small_world ++ s :: rest
    /\ slide_title s = Some (normalize_title "Summary of alpha")
    /\ Forall (fun s' => slide_title s' = None) rest
    /\ nonblank (body_lines (s :: rest)) = nonblank (Str.split_lines (invoke prompt)).
Proof.
  apply (X9_answer_goes_on_the_deck "Summary of alpha" "sum" small_world).
  apply elem_of_cons. right. apply elem_of_cons. by left.
Defined.

(** Two files with distinct, safe names. *)
Lemma X10_upload_writes_files_witness :
  app_files (save_uploaded_files
               [mkUploaded "b.pdf" []; mkUploaded "c.pdf" []] small_app).1 !! "c.pdf"
  = Some [].
Proof.
  destruct (X10_upload_writes_files
              [mkUploaded "b.pdf" []; mkUploaded "c.pdf" []] small_app)
    as (_ & _ & _ & _ & Hdistinct & _).
  { repeat constructor. }
  apply (Hdistinct ltac:(by (repeat constructor; rewrite ?elem_of_cons, ?elem_of_nil; try tauto; intros [|]; done))
                   (mkUploaded "c.pdf" [])).
  apply elem_of_cons. right. apply elem_of_cons. by left.
Defined.

(** A name with a path separator is outside the names that the model
    follows. *)
Example unsafe_names :
  safe_name "../output_presentation.pptx" = false
  /\ safe_name "sub/x.pdf" = false
  /\ safe_name "" = false
  /\ safe_name ".." = false
  /\ safe_name "messages" = false
  /\ safe_name "notes-2.pdf" = true.
Proof. by vm_compute. Qed.

Lemma X11_main_never_raises_witness :
  (main ui_ask small_app).2 ≠ inl (StopRaise (KeyError "Summary Generation"))
  /\ (main ui_ask small_app).2 ≠ inl StopUnmodelled.
Proof.
  apply (X11_main_never_raises ui_ask small_app).
  - split; [constructor | reflexivity].
  - apply elem_of_cons. right. apply elem_of_cons. by left.
Defined.

Lemma X12_query_is_answered_witness :
  exists r view,
    (main ui_ask small_app).2 = inr view
    /\ messages (main ui_ask small_app).1
       = messages small_app ++ exchange ("Summary of alpha", r)
    /\ view_messages view = messages (main ui_ask small_app).1
    /\ deck (app_world (main ui_ask small_app).1)
       = deck (app_world small_app)
         ++ paginate MAX_CHARS_PER_SLIDE "Summary of alpha" r.
Proof.
  apply (X12_query_is_answered ui_ask small_app "Summary of alpha").
  - split; [constructor | reflexivity].
  - apply elem_of_cons. right. apply elem_of_cons. by left.
  - reflexivity.
  - discriminate.
  - reflexivity.
Defined.

(** The first answer of a session: a file is written, none was offered. *)
Lemma X13_download_is_one_answer_behind_witness :
  exists view,
    (main ui_ask small_app).2 = inr view
    /\ view_download view = None
    /\ w_pptx (app_world (main ui_ask small_app).1) ≠ None.
Proof.
  assert (modelled_run ui_ask small_app) as Hrun
    by (split; [constructor | reflexivity]).
  destruct (main_finishes ui_ask small_app Hrun) as [view Hview].
  { apply elem_of_cons. right. apply elem_of_cons. by left. }
  { reflexivity. }
  exists view. split; [exact Hview |].
  destruct (X13_download_is_one_answer_behind ui_ask small_app
              "Summary of alpha" view) as (Hdl & _ & Hfile);
    [exact Hrun | reflexivity | discriminate | exact Hview |].
  split; [exact Hdl | exact Hfile].
Defined.

(** A run with an upload under a safe name and no query text. *)
Lemma X14_no_query_no_answer_witness :
  messages (main ui_idle small_app).1 = messages small_app
  /\ deck (app_world (main ui_idle small_app).1) = deck (app_world small_app)
  /\ searches (w_log (app_world (main ui_idle small_app).1))
     = searches (w_log (app_world small_app)).
Proof.
  apply (X14_no_query_no_answer ui_idle small_app).
  - split; [repeat constructor | reflexivity].
  - by left.
Defined.

Lemma X15_delete_restarts_the_run_witness :
  (main ui_delete small_app).2 = inl StopRerun
  /\ app_files (main ui_delete small_app).1 = delete "a.pdf" (uploaded_into ui_delete small_app)
  /\ messages (main ui_delete small_app).1 = messages small_app
  /\ deck (app_world (main ui_delete small_app).1) = deck (app_world small_app)
  /\ searches (w_log (app_world (main ui_delete small_app).1))
     = searches (w_log (app_world small_app))
  /\ (in_update ui_delete = false -> in_reset ui_delete = false ->
      w_index (app_world (main ui_delete small_app).1) = w_index (app_world small_app)).
Proof.
  apply (X15_delete_restarts_the_run ui_delete small_app "a.pdf").
  - split; [constructor | reflexivity].
  - reflexivity.
  - apply elem_of_dom. eexists. reflexivity.
Defined.

(** Three runs that the model follows, from the small state. *)
Lemma X16_session_exchanges_witness :
  exists qas : list (string * string),
    messages (runs [ui_ask; ui_delete; ui_idle] small_app)
    = messages small_app ++ concat (map exchange qas)
    /\ length qas <= 3
    /\ length (deck (app_world small_app)) + length qas
       <= length (deck (app_world (runs [ui_ask; ui_delete; ui_idle] small_app)))
    /\ deck (app_world small_app)
       `prefix_of` deck (app_world (runs [ui_ask; ui_delete; ui_idle] small_app)).
Proof.
  apply (X16_session_exchanges [ui_ask; ui_delete; ui_idle] small_app).
  - repeat constructor.
  - reflexivity.
Defined.

(** An upload whose name leaves the directory: the model stops following the
    run at the write, before the chat. *)
Example unsafe_upload_is_not_followed :
  (main (mkInputs [mkUploaded "../output_presentation.pptx" []] false false None
                  "Chat" (Some "q")) small_app).2
  = inl StopUnmodelled.
Proof. by vm_compute. Qed.

(** A session of three runs: a question, a delete, an idle run with an
    upload.  The answer is built from the chunk that the index holds. *)
Example session_of_three_runs :
  messages (runs [ui_ask; ui_delete; ui_idle] small_app)
  = exchange ("Summary of alpha", "oldSummary of alpha")
  /\ app_files (runs [ui_ask; ui_delete; ui_idle] small_app) !! "a.pdf" = None
  /\ app_files (runs [ui_ask; ui_delete; ui_idle] small_app) !! "b.pdf" = Some []
  /\ length (deck (app_world (runs [ui_ask; ui_delete; ui_idle] small_app))) = 1.
Proof. by vm_compute. Qed.
